(** * tabletop-signaling: the room registry and its message handlers

    A shallow embedding of [src/server.js]: the process-wide [rooms] map,
    the per-connection closure variables ([currentRoom], [isHost],
    [peerId]), the four handlers ([handleCreateRoom], [handleJoinRoom],
    [handleSignal], [cleanupConnection]) and the event dispatch of
    [server.on('connection', ...)].

    Conventions.
    - A WebSocket object is represented by its identity, a [conn].
    - [ws.send(JSON.stringify(e))] and [ws.close()] are recorded, in program
      order, in the list of [action]s a handler returns.
    - [rooms] is never iterated, so it is a [gmap string room]; a room's
      [clients] is iterated ([forEach], [keys()]), so it is an insertion
      ordered association list with the operations of a JS [Map].
    - Peer ids are JS numbers that only ever hold small integers (the counter
      starts at 2 and is incremented by one per join); they are integers
      of [Z] here.
    - Field values of inbound envelopes follow the wire format: [room_name]
      is a string, [password] a string or absent, [target_peer_id] an
      integer or absent; an absent field reads as [undefined], here [None]. *)

From Stdlib Require Import ZArith String List Lia Bool Sorted.
From stdpp Require Import gmap strings list fin_maps.
Import ListNotations.
Local Open Scope string_scope.
Local Open Scope list_scope.
Local Open Scope Z_scope.

(** ** JS truthiness of the values the handlers test *)

(* [!!x] for [x] a string, [null] or [undefined]. *)
Definition truthy_str (x : option string) : bool :=
  match x with
  | Some s => negb (String.eqb s EmptyString)
  | None => false
  end.

(* [!!x] for [x] an integer or [undefined]. *)
Definition truthy_num (x : option Z) : bool :=
  match x with
  | Some n => negb (n =? 0)
  | None => false
  end.

(* [x !== y] on strings / [null] / [undefined]. *)
Definition strict_neq (x y : option string) : bool :=
  match x, y with
  | Some a, Some b => negb (String.eqb a b)
  | None, None => false
  | _, _ => true
  end.

(** ** JS [Map] with integer keys, in insertion order *)

Definition conn := nat.

Module JsMap.

Definition t := list (Z * conn).

Definition empty : t := [].

Fixpoint has (k : Z) (m : t) : bool :=
  match m with
  | [] => false
  | (k', _) :: m' => if k' =? k then true else has k m'
  end.

Fixpoint get (k : Z) (m : t) : option conn :=
  match m with
  | [] => None
  | (k', v) :: m' => if k' =? k then Some v else get k m'
  end.

(* An existing key keeps its position, a new key goes last. *)
Fixpoint set (k : Z) (v : conn) (m : t) : t :=
  match m with
  | [] => [(k, v)]
  | (k', v') :: m' => if k' =? k then (k, v) :: m' else (k', v') :: set k v m'
  end.

Fixpoint delete (k : Z) (m : t) : t :=
  match m with
  | [] => []
  | (k', v') :: m' => if k' =? k then delete k m' else (k', v') :: delete k m'
  end.

Definition size (m : t) : nat := length m.

Definition keys (m : t) : list Z := map fst m.

Definition values (m : t) : list conn := map snd m.

End JsMap.

(** ** Data model *)

(* The closure variables of one connection. *)
Record session := Session {
  currentRoom : option string;
  isHost : bool;
  peerId : Z
}.

Definition fresh_session : session := Session None false 0.

Record room := Room {
  host : conn;
  clients : JsMap.t;
  password : option string;
  next_peer_id : Z
}.

Definition Data := string.

(* Parsed inbound envelopes, by [message.type]. *)
Inductive message :=
| create_room (room_name : string) (pw : option string)
| join_room (room_name : string) (pw : option string)
| signal (data : Data) (target_peer_id : option Z)
| unrecognized.

(* Outbound envelopes. *)
Inductive envelope :=
| error (msg : string)
| room_created (room_name : string) (peer_id : Z)
| room_joined (room_name : string) (peer_id : Z) (existing_peers : list Z)
| peer_joined (peer_id : Z)
| signal_from (data : Data) (from_peer_id : Z)
| host_disconnected
| peer_left (peer_id : Z).

Inductive action :=
| Send (to : conn) (e : envelope)
| Close (c : conn).

Record state := State {
  rooms : gmap string room;
  sessions : gmap conn session;
  next_conn : conn
}.

Definition init : state := State ∅ ∅ 0%nat.

Definition with_rooms (f : gmap string room -> gmap string room) (s : state) : state :=
  State (f (rooms s)) (sessions s) (next_conn s).

Definition session_of (s : state) (ws : conn) : session :=
  default fresh_session (sessions s !! ws).

Definition with_session (ws : conn) (f : session -> session) (s : state) : state :=
  State (rooms s) (<[ws := f (session_of s ws)]> (sessions s)) (next_conn s).

(** The accessors installed on each WebSocket. *)

Definition getCurrentRoom (s : state) (ws : conn) : option string :=
  currentRoom (session_of s ws).
Definition getIsHost (s : state) (ws : conn) : bool := isHost (session_of s ws).
Definition getPeerId (s : state) (ws : conn) : Z := peerId (session_of s ws).

Definition setCurrentRoom (ws : conn) (r : string) : state -> state :=
  with_session ws (fun σ => Session (Some r) (isHost σ) (peerId σ)).
Definition setIsHost (ws : conn) (h : bool) : state -> state :=
  with_session ws (fun σ => Session (currentRoom σ) h (peerId σ)).
Definition setPeerId (ws : conn) (id : Z) : state -> state :=
  with_session ws (fun σ => Session (currentRoom σ) (isHost σ) id).

(** ** The handlers *)

Definition handleCreateRoom (s : state) (ws : conn)
    (room_name : string) (pw : option string) : state * list action :=
  match rooms s !! room_name with
  | Some _ => (s, [Send ws (error "Room already exists")])
  | None =>
      let s := with_rooms
                 <[room_name := Room ws JsMap.empty
                                  (if truthy_str pw then pw else None) 2]> s in
      let s := setCurrentRoom ws room_name s in
      let s := setIsHost ws true s in
      let s := setPeerId ws 1 s in
      (s, [Send ws (room_created room_name 1)])
  end.

Definition handleJoinRoom (s : state) (ws : conn)
    (room_name : string) (pw : option string) : state * list action :=
  match rooms s !! room_name with
  | None => (s, [Send ws (error "Room not found")])
  | Some room =>
      if truthy_str (password room) && strict_neq (password room) pw then
        (s, [Send ws (error "Wrong password")])
      else if (4 <=? JsMap.size (clients room))%nat then
        (s, [Send ws (error "Room is full (max 5 players)")])
      else
        let peer_id := next_peer_id room in
        let room := Room (host room) (clients room) (password room)
                         (next_peer_id room + 1) in
        let room := Room (host room) (JsMap.set peer_id ws (clients room))
                         (password room) (next_peer_id room) in
        let s := with_rooms <[room_name := room]> s in
        let s := setCurrentRoom ws room_name s in
        let s := setIsHost ws false s in
        let s := setPeerId ws peer_id s in
        let existing_peer_ids :=
          List.filter (fun id => negb (id =? peer_id)) (JsMap.keys (clients room)) in
        (s,
         Send ws (room_joined room_name peer_id existing_peer_ids)
         :: Send (host room) (peer_joined peer_id)
         :: flat_map (fun '(client_peer_id, client_ws) =>
                        if negb (client_peer_id =? peer_id)
                        then [Send client_ws (peer_joined peer_id)]
                        else [])
                     (clients room))
  end.

Definition handleSignal (s : state) (ws : conn)
    (data : Data) (target_peer_id : option Z) : state * list action :=
  let room_name := getCurrentRoom s ws in
  if negb (truthy_str room_name) then (s, [])
  else
    match room_name ≫= (fun n => rooms s !! n) with
    | None => (s, [])
    | Some room =>
        let from_peer_id := getPeerId s ws in
        if getIsHost s ws then
          let has_target :=
            match target_peer_id with
            | Some t => JsMap.has t (clients room)
            | None => false
            end in
          if truthy_num target_peer_id && has_target then
            match target_peer_id ≫= (fun t => JsMap.get t (clients room)) with
            | Some target_client =>
                (s, [Send target_client (signal_from data 1)])
            | None => (s, [])
            end
          else if negb (truthy_num target_peer_id) then
            (s, map (fun client => Send client (signal_from data 1))
                    (JsMap.values (clients room)))
          else (s, [])
        else
          (s, [Send (host room) (signal_from data from_peer_id)])
    end.

(* [room.host] is set to the creating WebSocket and never reassigned, so the
   test [if (room.host)] of the client branch always passes. *)
Definition cleanupConnection (s : state) (room_name : string) (ws : conn)
    (is_host : bool) (peer_id : Z) : state * list action :=
  match rooms s !! room_name with
  | None => (s, [])
  | Some room =>
      if is_host then
        (with_rooms (delete room_name) s,
         flat_map (fun client => [Send client host_disconnected; Close client])
                  (JsMap.values (clients room)))
      else
        let room := Room (host room) (JsMap.delete peer_id (clients room))
                         (password room) (next_peer_id room) in
        (with_rooms <[room_name := room]> s,
         Send (host room) (peer_left peer_id)
         :: map (fun client => Send client (peer_left peer_id))
                (JsMap.values (clients room)))
  end.

(** ** Event dispatch *)

Inductive event :=
| EvConnection
| EvMessage (ws : conn) (m : message)
| EvClose (ws : conn).

(* [server.on('connection')]: a new WebSocket with fresh closure variables. *)
Definition on_connection (s : state) : state * list action :=
  (State (rooms s) (<[next_conn s := fresh_session]> (sessions s))
         (S (next_conn s)), []).

(* [ws.on('message')], after [JSON.parse]. *)
Definition on_message (s : state) (ws : conn) (m : message) : state * list action :=
  match m with
  | create_room room_name pw => handleCreateRoom s ws room_name pw
  | join_room room_name pw => handleJoinRoom s ws room_name pw
  | signal data target_peer_id => handleSignal s ws data target_peer_id
  | unrecognized => (s, [])
  end.

(* [ws.on('close')]; the closure variables die with the connection. *)
Definition on_close (s : state) (ws : conn) : state * list action :=
  let σ := session_of s ws in
  let '(s', out) :=
    match currentRoom σ with
    | Some room_name =>
        if truthy_str (currentRoom σ)
        then cleanupConnection s room_name ws (isHost σ) (peerId σ)
        else (s, [])
    | None => (s, [])
    end in
  (State (rooms s') (delete ws (sessions s')) (next_conn s'), out).

(* Events of a connection that is not open are not delivered. *)
Definition step (s : state) (e : event) : state * list action :=
  match e with
  | EvConnection => on_connection s
  | EvMessage ws m =>
      if sessions s !! ws is Some _ then on_message s ws m else (s, [])
  | EvClose ws =>
      if sessions s !! ws is Some _ then on_close s ws else (s, [])
  end.

Fixpoint run (s : state) (evs : list event) : state :=
  match evs with
  | [] => s
  | e :: evs' => run (step s e).1 evs'
  end.

Inductive reachable : state -> Prop :=
| reachable_init : reachable init
| reachable_step s e : reachable s -> reachable (step s e).1.

(** ** Notions used in the statements *)

(* The two tests a [join_room] for an existing room must pass: the password
   test and the capacity test of [handleJoinRoom], in that order. *)
Definition join_accepted (r : room) (pw : option string) : bool :=
  negb (truthy_str (password r) && strict_neq (password r) pw)
  && negb (4 <=? JsMap.size (clients r))%nat.

(** The peer id, if any, that a handler's output announces to a joiner of
    room [n]: [room_joined] is the first envelope of a successful join and
    is sent by nothing else. *)
Definition assigned_id (n : string) (out : list action) : option Z :=
  match out with
  | Send _ (room_joined n' pid _) :: _ => if String.eqb n' n then Some pid else None
  | _ => None
  end.

(** One event, seen from a room that exists before and after it: host and
    password are untouched; either the event is a successful join of this
    room, which hands out [next_peer_id] and advances the counter by one, or
    the counter is unchanged and the clients are the same or one was
    deleted. *)
Definition room_step (n : string) (r r' : room) (out : list action) : Prop :=
  host r' = host r /\ password r' = password r /\
  match assigned_id n out with
  | Some p =>
      p = next_peer_id r /\ next_peer_id r' = p + 1 /\
      (JsMap.size (clients r) < 4)%nat /\
      exists ws, clients r' = JsMap.set p ws (clients r)
  | None =>
      next_peer_id r' = next_peer_id r /\
      (clients r' = clients r \/
       exists k, clients r' = JsMap.delete k (clients r))
  end.

(* What holds of every room of a reachable state. *)
Definition room_inv (r : room) : Prop :=
  NoDup (JsMap.keys (clients r)) /\
  (forall k, In k (JsMap.keys (clients r)) -> 2 <= k < next_peer_id r) /\
  2 <= next_peer_id r /\
  (JsMap.size (clients r) <= 4)%nat /\
  (password r = None \/ truthy_str (password r) = true).

(* The room named [n] is in the registry after every event of [evs]: no
   event of [evs] is its host's cleanup. *)
Fixpoint room_alive (n : string) (s : state) (evs : list event) : bool :=
  match evs with
  | [] => true
  | e :: evs' =>
      match rooms (step s e).1 !! n with
      | Some _ => room_alive n (step s e).1 evs'
      | None => false
      end
  end.

(* The peer ids handed out to joiners of room [n] along [evs], in order. *)
Fixpoint assigned_ids (n : string) (s : state) (evs : list event) : list Z :=
  match evs with
  | [] => []
  | e :: evs' =>
      match assigned_id n (step s e).2 with
      | Some p => p :: assigned_ids n (step s e).1 evs'
      | None => assigned_ids n (step s e).1 evs'
      end
  end.

(* What holds of the closure variables of every open connection: unset
   before the first accepted request, then peer id 1 for a host and a
   peer id from the room's counter for a client. *)
Definition session_inv (σ : session) : Prop :=
  match currentRoom σ with
  | None => isHost σ = false /\ peerId σ = 0
  | Some _ => if isHost σ then peerId σ = 1 else 2 <= peerId σ
  end.

(* Every open connection that is marked host of a room is the [host] of
   that room in the registry. *)
Definition host_inv (s : state) : Prop :=
  forall ws σ n,
    sessions s !! ws = Some σ -> currentRoom σ = Some n -> isHost σ = true ->
    exists r, rooms s !! n = Some r /\ host r = ws.

(** ** Sample executions, used to instantiate the theorems below *)

(* The scenario of the specification: a host and two joiners. *)
Definition three_peers : state :=
  run init [EvConnection; EvConnection; EvConnection;
            EvMessage 0%nat (create_room "r1" None);
            EvMessage 1%nat (join_room "r1" None);
            EvMessage 2%nat (join_room "r1" None)].

(* A password-protected room filled to capacity; connection 5 is outside. *)
Definition full_locked_room : state :=
  run init [EvConnection; EvConnection; EvConnection;
            EvConnection; EvConnection; EvConnection;
            EvMessage 0%nat (create_room "den" (Some "pw"));
            EvMessage 1%nat (join_room "den" (Some "pw"));
            EvMessage 2%nat (join_room "den" (Some "pw"));
            EvMessage 3%nat (join_room "den" (Some "pw"));
            EvMessage 4%nat (join_room "den" (Some "pw"))].

(* A room created with the empty string as password, filled to capacity. *)
Definition full_open_room : state :=
  run init [EvConnection; EvConnection; EvConnection;
            EvConnection; EvConnection; EvConnection;
            EvMessage 0%nat (create_room "hall" (Some EmptyString));
            EvMessage 1%nat (join_room "hall" None);
            EvMessage 2%nat (join_room "hall" (Some "x"));
            EvMessage 3%nat (join_room "hall" (Some EmptyString));
            EvMessage 4%nat (join_room "hall" None)].

(* A room whose name is the empty string, with one client. *)
Definition unnamed_room : state :=
  run init [EvConnection; EvConnection;
            EvMessage 0%nat (create_room EmptyString None);
            EvMessage 1%nat (join_room EmptyString None)].

(* After the scenario: a client leaves, two more connections join. *)
Definition later_joins : list event :=
  [EvClose 1%nat; EvConnection; EvMessage 3%nat (join_room "r1" None);
   EvConnection; EvMessage 4%nat (join_room "r1" (Some "x"))].

(* Connection 0 hosts room "a"; connection 1 is a client of it. *)
Definition hosting_a : state :=
  run init [EvConnection; EvConnection;
            EvMessage 0%nat (create_room "a" None);
            EvMessage 1%nat (join_room "a" None)].

(** ** Basic facts about the model *)

Lemma run_reachable evs : forall s, reachable s -> reachable (run s evs).
Proof.
  induction evs as [|e evs IH]; intros s Hs; simpl; [assumption|].
  apply IH. now constructor.
Qed.

Lemma run_app s evs1 evs2 : run s (evs1 ++ evs2) = run (run s evs1) evs2.
Proof. revert s. induction evs1 as [|e evs1 IH]; intros s; simpl; auto. Qed.

Lemma truthy_str_Some p : truthy_str (Some p) = true <-> p <> EmptyString.
Proof.
  simpl. destruct (String.eqb_spec p EmptyString); simpl; split; congruence.
Qed.

Lemma strict_neq_true x y : strict_neq x y = true <-> x <> y.
Proof.
  destruct x as [a|], y as [b|]; simpl; try (split; congruence).
  destruct (String.eqb_spec a b); simpl; split; congruence.
Qed.

(* The password test of [handleJoinRoom] lets the request through exactly
   when the room stores no (truthy) password or the supplied one equals it. *)
Lemma password_test_false rp pw :
  truthy_str rp && strict_neq rp pw = false <->
  (truthy_str rp = false \/ pw = rp).
Proof.
  rewrite andb_false_iff. split; intros [H|H]; auto.
  - right. destruct (strict_neq rp pw) eqn:E; [discriminate|].
    destruct (decide (rp = pw)) as [->|Hne]; [reflexivity|].
    apply strict_neq_true in Hne. congruence.
  - right. subst. destruct (strict_neq rp rp) eqn:E; [|reflexivity].
    apply strict_neq_true in E. congruence.
Qed.

Module JsMapFacts.
Import JsMap.

Lemma has_keys k m : has k m = true <-> In k (keys m).
Proof.
  induction m as [|[k' v] m IH]; simpl; [split; [discriminate|tauto]|].
  destruct (Z.eqb_spec k' k); [tauto|].
  rewrite IH. split; [tauto|]. intros [?|?]; [contradiction|assumption].
Qed.

Lemma has_get k m : has k m = true <-> is_Some (get k m).
Proof.
  induction m as [|[k' v] m IH]; simpl.
  - split; [discriminate|]. intros [? ?]; discriminate.
  - destruct (Z.eqb_spec k' k); [|assumption]. split; eauto.
Qed.

Lemma get_In k v m : get k m = Some v -> In (k, v) m.
Proof.
  induction m as [|[k' v'] m IH]; simpl; [discriminate|].
  destruct (Z.eqb_spec k' k); [|auto]. intros [= ->]. subst. auto.
Qed.

(* On a map without duplicate keys [get] finds every entry. *)
Lemma In_get k v m : NoDup (keys m) -> In (k, v) m -> get k m = Some v.
Proof.
  induction m as [|[k' v'] m IH]; simpl; [tauto|].
  intros Hnd [Heq|Hin].
  - injection Heq as -> ->. now rewrite Z.eqb_refl.
  - apply NoDup_cons in Hnd as [Hk' Hnd].
    destruct (Z.eqb_spec k' k) as [->|]; [|auto].
    exfalso. apply Hk'. apply list_elem_of_In.
    change k with (fst (k, v)). now apply in_map.
Qed.

Lemma set_fresh k v m : ~ In k (keys m) -> set k v m = m ++ [(k, v)].
Proof.
  induction m as [|[k' v'] m IH]; simpl; [reflexivity|].
  intros Hk. destruct (Z.eqb_spec k' k); [tauto|].
  rewrite IH; tauto.
Qed.

Lemma delete_delete k m : delete k (delete k m) = delete k m.
Proof.
  induction m as [|[k' v'] m IH]; simpl; [reflexivity|].
  destruct (Z.eqb_spec k' k) as [|Hne]; [assumption|].
  simpl. destruct (Z.eqb_spec k' k); [contradiction|]. now rewrite IH.
Qed.

Lemma keys_delete k m :
  keys (delete k m) = List.filter (fun id => negb (id =? k)) (keys m).
Proof.
  induction m as [|[k' v'] m IH]; simpl; [reflexivity|].
  destruct (Z.eqb_spec k' k); simpl; [assumption|]. now rewrite IH.
Qed.

Lemma filter_other_keys k (l : list Z) :
  ~ In k l -> List.filter (fun id => negb (id =? k)) l = l.
Proof.
  induction l as [|x l IH]; simpl; [reflexivity|].
  intros Hk. destruct (Z.eqb_spec x k); [subst; tauto|].
  simpl. rewrite IH; tauto.
Qed.

Lemma notify_others k (f : conn -> list action) m :
  ~ In k (keys m) ->
  flat_map (fun '(id, w) => if negb (id =? k) then f w else []) m =
  flat_map (fun '(_, w) => f w) m.
Proof.
  induction m as [|[k' v'] m IH]; simpl; [reflexivity|].
  intros Hk. destruct (Z.eqb_spec k' k); [subst; tauto|].
  simpl. rewrite IH; tauto.
Qed.

End JsMapFacts.

(** ** What each handler does to the registry *)

Lemma handleCreateRoom_rooms s ws n pw :
  rooms (handleCreateRoom s ws n pw).1 =
  match rooms s !! n with
  | Some _ => rooms s
  | None => <[n := Room ws [] (if truthy_str pw then pw else None) 2]> (rooms s)
  end.
Proof. unfold handleCreateRoom. now destruct (rooms s !! n). Qed.

Lemma handleJoinRoom_rooms s ws n pw :
  rooms (handleJoinRoom s ws n pw).1 =
  match rooms s !! n with
  | Some r =>
      if join_accepted r pw
      then <[n := Room (host r) (JsMap.set (next_peer_id r) ws (clients r))
                       (password r) (next_peer_id r + 1)]> (rooms s)
      else rooms s
  | None => rooms s
  end.
Proof.
  unfold handleJoinRoom, join_accepted.
  destruct (rooms s !! n) as [r|]; [|reflexivity].
  destruct (truthy_str (password r) && strict_neq (password r) pw);
    [reflexivity|].
  now destruct (4 <=? JsMap.size (clients r))%nat.
Qed.

Lemma handleSignal_state s ws data target : (handleSignal s ws data target).1 = s.
Proof.
  unfold handleSignal.
  destruct (negb (truthy_str (getCurrentRoom s ws))); [reflexivity|].
  destruct (getCurrentRoom s ws ≫= _) as [r|]; [|reflexivity].
  destruct (getIsHost s ws); [|reflexivity].
  destruct (truthy_num target && _).
  - now destruct (target ≫= _).
  - now destruct (negb (truthy_num target)).
Qed.

Lemma cleanupConnection_rooms s n ws is_host pid :
  rooms (cleanupConnection s n ws is_host pid).1 =
  match rooms s !! n with
  | Some r =>
      if is_host then delete n (rooms s)
      else <[n := Room (host r) (JsMap.delete pid (clients r))
                       (password r) (next_peer_id r)]> (rooms s)
  | None => rooms s
  end.
Proof.
  unfold cleanupConnection. destruct (rooms s !! n); [|reflexivity].
  now destruct is_host.
Qed.

Lemma on_close_rooms s ws :
  rooms (on_close s ws).1 = rooms s \/
  exists n is_host pid, rooms (on_close s ws).1 =
                        rooms (cleanupConnection s n ws is_host pid).1.
Proof.
  unfold on_close. destruct (currentRoom (session_of s ws)) as [n|]; [|now left].
  destruct (truthy_str (Some n)); [|now left].
  right. exists n, (isHost (session_of s ws)), (peerId (session_of s ws)).
  now destruct (cleanupConnection s n ws _ _).
Qed.

Lemma cleanupConnection_assigns_nothing s n0 ws is_host pid n :
  assigned_id n (cleanupConnection s n0 ws is_host pid).2 = None.
Proof.
  unfold cleanupConnection. destruct (rooms s !! n0) as [r|]; [|reflexivity].
  destruct is_host; [|reflexivity]. simpl.
  now destruct (JsMap.values (clients r)).
Qed.

Lemma handleSignal_assigns_nothing s ws data target n :
  assigned_id n (handleSignal s ws data target).2 = None.
Proof.
  unfold handleSignal.
  destruct (negb (truthy_str (getCurrentRoom s ws))); [reflexivity|].
  destruct (getCurrentRoom s ws ≫= _) as [r|]; [|reflexivity].
  destruct (getIsHost s ws); [|reflexivity].
  destruct (truthy_num target && _).
  - now destruct (target ≫= _).
  - destruct (negb (truthy_num target)); [|reflexivity]. simpl.
    now destruct (JsMap.values (clients r)).
Qed.

Lemma room_step_refl n r out :
  assigned_id n out = None -> room_step n r r out.
Proof. intros H. unfold room_step. rewrite H. auto. Qed.

Lemma handleCreateRoom_room_step s ws n0 pw n r r' :
  rooms s !! n = Some r ->
  rooms (handleCreateRoom s ws n0 pw).1 !! n = Some r' ->
  room_step n r r' (handleCreateRoom s ws n0 pw).2.
Proof.
  intros Hr. rewrite handleCreateRoom_rooms. unfold handleCreateRoom.
  destruct (rooms s !! n0) as [r0|] eqn:E0; simpl.
  - intros Hr'. assert (r' = r) as -> by congruence. now apply room_step_refl.
  - rewrite lookup_insert_ne by congruence.
    intros Hr'. assert (r' = r) as -> by congruence. now apply room_step_refl.
Qed.

Lemma handleJoinRoom_room_step s ws n0 pw n r r' :
  rooms s !! n = Some r ->
  rooms (handleJoinRoom s ws n0 pw).1 !! n = Some r' ->
  room_step n r r' (handleJoinRoom s ws n0 pw).2.
Proof.
  intros Hr. rewrite handleJoinRoom_rooms. unfold handleJoinRoom, join_accepted.
  destruct (rooms s !! n0) as [r0|] eqn:E0.
  2:{ intros Hr'. assert (r' = r) as -> by congruence. now apply room_step_refl. }
  destruct (truthy_str (password r0) && strict_neq (password r0) pw);
    cbn [negb andb].
  { intros Hr'. assert (r' = r) as -> by congruence. now apply room_step_refl. }
  destruct (Nat.leb_spec 4 (JsMap.size (clients r0))); cbn [negb andb].
  { intros Hr'. assert (r' = r) as -> by congruence. now apply room_step_refl. }
  destruct (decide (n0 = n)) as [->|Hne].
  - rewrite lookup_insert_eq. intros [= <-].
    assert (r0 = r) as -> by congruence.
    unfold room_step; simpl. rewrite String.eqb_refl.
    repeat split; try reflexivity; [assumption|]. now exists ws.
  - rewrite lookup_insert_ne by assumption.
    intros Hr'. assert (r' = r) as -> by congruence.
    apply room_step_refl. simpl.
    destruct (String.eqb_spec n0 n); [contradiction|reflexivity].
Qed.

Lemma cleanupConnection_room_step s n0 ws is_host pid n r r' :
  rooms s !! n = Some r ->
  rooms (cleanupConnection s n0 ws is_host pid).1 !! n = Some r' ->
  room_step n r r' (cleanupConnection s n0 ws is_host pid).2.
Proof.
  intros Hr. rewrite cleanupConnection_rooms.
  pose proof (cleanupConnection_assigns_nothing s n0 ws is_host pid n) as Hout.
  unfold room_step. rewrite Hout.
  destruct (rooms s !! n0) as [r0|] eqn:E0.
  2:{ intros Hr'. assert (r' = r) as -> by congruence. auto. }
  destruct (decide (n0 = n)) as [->|Hne].
  - assert (r0 = r) as -> by congruence. destruct is_host.
    + rewrite lookup_delete_eq. discriminate.
    + rewrite lookup_insert_eq. intros [= <-]. simpl. eauto 6.
  - destruct is_host.
    + rewrite lookup_delete_ne by assumption.
      intros Hr'. assert (r' = r) as -> by congruence. auto.
    + rewrite lookup_insert_ne by assumption.
      intros Hr'. assert (r' = r) as -> by congruence. auto.
Qed.

Lemma step_room_step s e n r r' :
  rooms s !! n = Some r ->
  rooms (step s e).1 !! n = Some r' ->
  room_step n r r' (step s e).2.
Proof.
  intros Hr. destruct e as [|ws m|ws]; simpl.
  - intros Hr'. assert (r' = r) as -> by congruence. now apply room_step_refl.
  - destruct (sessions s !! ws); simpl.
    2:{ intros Hr'. assert (r' = r) as -> by congruence. now apply room_step_refl. }
    destruct m as [n0 pw|n0 pw|data target|]; simpl.
    + now apply handleCreateRoom_room_step.
    + now apply handleJoinRoom_room_step.
    + rewrite handleSignal_state. intros Hr'.
      assert (r' = r) as -> by congruence.
      apply room_step_refl, handleSignal_assigns_nothing.
    + intros Hr'. assert (r' = r) as -> by congruence. now apply room_step_refl.
  - destruct (sessions s !! ws); simpl.
    2:{ intros Hr'. assert (r' = r) as -> by congruence. now apply room_step_refl. }
    unfold on_close. destruct (currentRoom (session_of s ws)) as [n0|]; simpl.
    2:{ intros Hr'. assert (r' = r) as -> by congruence. now apply room_step_refl. }
    destruct (negb (String.eqb n0 EmptyString)); simpl.
    2:{ intros Hr'. assert (r' = r) as -> by congruence. now apply room_step_refl. }
    pose proof (cleanupConnection_room_step s n0 ws (isHost (session_of s ws))
                  (peerId (session_of s ws)) n r r' Hr) as H.
    destruct (cleanupConnection s n0 ws _ _) as [s' out]. exact H.
Qed.

(** A room that appears with an event was just created: no clients, counter
    at 2, and a stored password that is [null] or a non-empty string. *)
Lemma step_room_created s e n r' :
  rooms s !! n = None ->
  rooms (step s e).1 !! n = Some r' ->
  clients r' = [] /\ next_peer_id r' = 2 /\
  (password r' = None \/ truthy_str (password r') = true) /\
  exists ws pw, e = EvMessage ws (create_room n pw).
Proof.
  intros Hn. destruct e as [|ws m|ws]; simpl.
  - congruence.
  - destruct (sessions s !! ws); simpl; [|congruence].
    destruct m as [n0 pw|n0 pw|data target|]; simpl.
    + rewrite handleCreateRoom_rooms.
      destruct (rooms s !! n0) eqn:E0; [congruence|].
      destruct (decide (n0 = n)) as [->|Hne].
      * rewrite lookup_insert_eq. intros [= <-]. simpl.
        repeat split; eauto. destruct (truthy_str pw) eqn:E; auto.
      * rewrite lookup_insert_ne by assumption. congruence.
    + rewrite handleJoinRoom_rooms.
      destruct (rooms s !! n0) as [r0|] eqn:E0; [|congruence].
      destruct (join_accepted r0 pw); [|congruence].
      destruct (decide (n0 = n)) as [->|Hne]; [congruence|].
      rewrite lookup_insert_ne by assumption. congruence.
    + rewrite handleSignal_state. congruence.
    + congruence.
  - destruct (sessions s !! ws); simpl; [|congruence].
    destruct (on_close_rooms s ws) as [->|(n0 & h & p & ->)]; [congruence|].
    rewrite cleanupConnection_rooms.
    destruct (rooms s !! n0) as [r0|] eqn:E0; [|congruence].
    destruct (decide (n0 = n)) as [->|Hne]; [congruence|].
    destruct h.
    + rewrite lookup_delete_ne by assumption. congruence.
    + rewrite lookup_insert_ne by assumption. congruence.
Qed.

(** ** The room invariant *)

Lemma NoDup_filter_keys (f : Z -> bool) (l : list Z) :
  NoDup l -> NoDup (List.filter f l).
Proof.
  induction 1 as [|x l Hx Hnd IH]; simpl; [constructor|].
  destruct (f x); [|assumption].
  constructor; [|assumption].
  rewrite list_elem_of_In, filter_In. rewrite list_elem_of_In in Hx. tauto.
Qed.

Lemma room_step_inv n r r' out :
  room_inv r -> room_step n r r' out -> room_inv r'.
Proof.
  intros (Hnd & Hrange & Hnext & Hsize & Hpw) (Hhost & Hpass & Hcase).
  unfold room_inv. rewrite Hpass.
  destruct (assigned_id n out) as [p|].
  - destruct Hcase as (-> & Hnext' & Hlt & ws & Hcl).
    assert (Hfresh : ~ In (next_peer_id r) (JsMap.keys (clients r))).
    { intros Hin. apply Hrange in Hin. lia. }
    rewrite Hcl, (JsMapFacts.set_fresh _ _ _ Hfresh), Hnext'.
    unfold JsMap.keys, JsMap.size. rewrite map_app, length_app. simpl.
    repeat split; try lia; try assumption.
    + apply NoDup_app. split; [assumption|]. split.
      * intros x Hx Hx'. apply list_elem_of_In in Hx.
        apply list_elem_of_In in Hx'. destruct Hx' as [<-|[]]. tauto.
      * apply NoDup_singleton.
    + apply in_app_or in H as [H|[<-|[]]]; [apply Hrange in H|]; lia.
    + apply in_app_or in H as [H|[<-|[]]]; [apply Hrange in H|]; lia.
    + unfold JsMap.size in Hlt. lia.
  - destruct Hcase as (-> & [->|[k ->]]); [repeat split; auto; apply Hrange; auto|].
    rewrite JsMapFacts.keys_delete.
    repeat split; try assumption.
    + now apply NoDup_filter_keys.
    + apply filter_In in H as [H _]. apply Hrange in H. lia.
    + apply filter_In in H as [H _]. apply Hrange in H. lia.
    + unfold JsMap.size in *.
      pose proof (filter_length_le (fun id => negb (id =? k)) (JsMap.keys (clients r))) as Hle.
      rewrite <- JsMapFacts.keys_delete in Hle. unfold JsMap.keys in Hle.
      rewrite !length_map in Hle. lia.
Qed.

Lemma reachable_room_inv s :
  reachable s -> forall n r, rooms s !! n = Some r -> room_inv r.
Proof.
  induction 1 as [|s e Hs IH]; intros n r'.
  - simpl. rewrite lookup_empty. discriminate.
  - intros Hr'. destruct (rooms s !! n) as [r|] eqn:Hr.
    + eapply room_step_inv; [exact (IH n r Hr)|].
      exact (step_room_step s e n r r' Hr Hr').
    + destruct (step_room_created s e n r' Hr Hr') as (Hcl & Hnext & Hpw & _).
      unfold room_inv, JsMap.size. rewrite Hcl, Hnext. simpl.
      repeat split; try lia; try assumption; try tauto. constructor.
Qed.

(** ** One room over a sequence of events *)

Lemma room_lifetime evs : forall s n r,
  rooms s !! n = Some r ->
  room_alive n s evs = true ->
  exists r', rooms (run s evs) !! n = Some r' /\
    host r' = host r /\ password r' = password r /\
    next_peer_id r <= next_peer_id r' /\
    Forall (fun p => next_peer_id r <= p < next_peer_id r') (assigned_ids n s evs) /\
    StronglySorted Z.lt (assigned_ids n s evs).
Proof.
  induction evs as [|e evs IH]; intros s n r Hr Halive; simpl in *.
  - exists r. repeat split; try assumption; try lia; constructor.
  - destruct (rooms (step s e).1 !! n) as [r1|] eqn:Hr1; [|discriminate].
    destruct (IH _ _ _ Hr1 Halive) as (r' & Hr' & Hh & Hp & Hle & Hall & Hsorted).
    destruct (step_room_step s e n r r1 Hr Hr1) as (Hh1 & Hp1 & Hcase).
    exists r'. split; [assumption|].
    split; [congruence|]. split; [congruence|].
    destruct (assigned_id n (step s e).2) as [p|].
    + destruct Hcase as (-> & Hn1 & _ & _).
      split; [lia|]. split.
      * constructor; [lia|]. eapply Forall_impl; [exact Hall|].
        simpl. intros; lia.
      * constructor; [assumption|]. eapply Forall_impl; [exact Hall|].
        simpl. intros; lia.
    + destruct Hcase as (Hn1 & _). rewrite Hn1 in *.
      repeat split; assumption.
Qed.

Lemma StronglySorted_lt_NoDup (l : list Z) : StronglySorted Z.lt l -> NoDup l.
Proof.
  induction 1 as [|x l Hs IH Hall]; constructor; [|assumption].
  intros Hin. apply list_elem_of_In in Hin.
  rewrite Forall_forall in Hall. apply list_elem_of_In, Hall in Hin. lia.
Qed.

(** ** Peer-id allocation *)

(** C4. In every reachable state, the client peer ids of each room are
    pairwise distinct, at least 2 and strictly below the room's
    [next_peer_id]. A room enters the registry with [next_peer_id = 2]; no
    event decreases the counter of a room that stays in the registry; and
    over any sequence of events during which the room stays in the registry
    the peer ids handed out to its joiners are pairwise distinct (strictly
    increasing), never below the counter at the start, hence different from
    every id handed out earlier in the room's life. *)
Theorem peer_ids_unique_and_never_reused s :
  reachable s ->
  (forall n r, rooms s !! n = Some r ->
     NoDup (JsMap.keys (clients r)) /\
     forall k, In k (JsMap.keys (clients r)) -> 2 <= k < next_peer_id r) /\
  (forall e n r', rooms s !! n = None -> rooms (step s e).1 !! n = Some r' ->
     next_peer_id r' = 2) /\
  (forall e n r r', rooms s !! n = Some r -> rooms (step s e).1 !! n = Some r' ->
     next_peer_id r <= next_peer_id r') /\
  (forall evs n r, rooms s !! n = Some r -> room_alive n s evs = true ->
     NoDup (assigned_ids n s evs) /\
     StronglySorted Z.lt (assigned_ids n s evs) /\
     (forall p, In p (assigned_ids n s evs) ->
        next_peer_id r <= p /\ ~ In p (JsMap.keys (clients r))) /\
     exists r', rooms (run s evs) !! n = Some r' /\
                next_peer_id r <= next_peer_id r' /\
                forall p, In p (assigned_ids n s evs) -> p < next_peer_id r').
Proof.
  intros Hs. repeat apply conj.
  - intros n r Hr.
    destruct (reachable_room_inv s Hs n r Hr) as (Hnd & Hrange & _). auto.
  - intros e n r' Hn Hr'.
    now destruct (step_room_created s e n r' Hn Hr') as (_ & Hnext & _).
  - intros e n r r' Hr Hr'.
    destruct (step_room_step s e n r r' Hr Hr') as (_ & _ & Hcase).
    destruct (assigned_id n (step s e).2).
    + destruct Hcase as (-> & -> & _). lia.
    + destruct Hcase as (-> & _). lia.
  - intros evs n r Hr Halive.
    destruct (room_lifetime evs s n r Hr Halive)
      as (r' & Hr' & _ & _ & Hle & Hall & Hsorted).
    destruct (reachable_room_inv s Hs n r Hr) as (_ & Hrange & _).
    rewrite Forall_forall in Hall.
    split; [now apply StronglySorted_lt_NoDup|].
    split; [assumption|]. split.
    + intros p Hp. apply list_elem_of_In, Hall in Hp.
      split; [lia|]. intros Hin. apply Hrange in Hin. lia.
    + exists r'. repeat split; try assumption.
      intros p Hp. apply list_elem_of_In, Hall in Hp. lia.
Qed.

Lemma three_peers_reachable : reachable three_peers.
Proof. apply run_reachable, reachable_init. Qed.

Lemma peer_ids_unique_and_never_reused_witness :
  reachable three_peers /\
  NoDup (assigned_ids "r1" three_peers later_joins) /\
  assigned_ids "r1" three_peers later_joins = [4; 5].
Proof.
  split; [exact three_peers_reachable|]. split; [|vm_compute; reflexivity].
  refine (proj1 (proj2 (proj2 (proj2
    (peer_ids_unique_and_never_reused three_peers three_peers_reachable)))
    later_joins "r1" (Room 0%nat [(2, 1%nat); (3, 2%nat)] None 4) _ _)).
  - vm_compute. reflexivity.
  - vm_compute. reflexivity.
Defined.

Lemma broadcast_as_map (f : conn -> action) (m : JsMap.t) :
  flat_map (fun '(_, w) => [f w]) m = map f (JsMap.values m).
Proof.
  induction m as [|[k w] m IH]; simpl; [reflexivity|]. now rewrite IH.
Qed.

Lemma join_accepted_true r pw :
  join_accepted r pw = true <->
  (truthy_str (password r) = false \/ pw = password r) /\
  (JsMap.size (clients r) < 4)%nat.
Proof.
  unfold join_accepted. rewrite andb_true_iff, !negb_true_iff.
  rewrite password_test_false, Nat.leb_gt. tauto.
Qed.

Lemma session_after_setters s ws n h id :
  session_of (setPeerId ws id (setIsHost ws h (setCurrentRoom ws n s))) ws =
  Session (Some n) h id.
Proof.
  unfold setPeerId, setIsHost, setCurrentRoom, with_session, session_of; simpl.
  now rewrite !lookup_insert_eq.
Qed.

(** C1. A join that passes the existence, password and capacity checks
    (from a reachable state) gives the joiner [peer_id = next_peer_id],
    stores the room with the counter advanced by one and the entry
    [(peer_id, ws)] added to [clients], records room, role and id on the
    connection, and first sends the joiner [room_joined] with
    [existing_peers] the client ids of the room before the join, which
    contain neither 1 nor the new id; the host and the earlier clients then
    get [peer_joined]. *)
Theorem join_assigns_next_peer_id s ws n pw r :
  reachable s ->
  rooms s !! n = Some r ->
  join_accepted r pw = true ->
  let peer_id := next_peer_id r in
  let s' := (handleJoinRoom s ws n pw).1 in
  rooms s' = <[n := Room (host r) (clients r ++ [(peer_id, ws)])
                         (password r) (peer_id + 1)]> (rooms s) /\
  JsMap.get peer_id (clients r ++ [(peer_id, ws)]) = Some ws /\
  session_of s' ws = Session (Some n) false peer_id /\
  (handleJoinRoom s ws n pw).2 =
    Send ws (room_joined n peer_id (JsMap.keys (clients r)))
    :: Send (host r) (peer_joined peer_id)
    :: map (fun w => Send w (peer_joined peer_id)) (JsMap.values (clients r)) /\
  ~ In 1 (JsMap.keys (clients r)) /\
  ~ In peer_id (JsMap.keys (clients r)).
Proof.
  intros Hs Hr Hacc peer_id s'.
  destruct (reachable_room_inv s Hs n r Hr) as (Hnd & Hrange & _).
  assert (Hfresh : ~ In peer_id (JsMap.keys (clients r))).
  { intros Hin. apply Hrange in Hin. subst peer_id. lia. }
  assert (Hone : ~ In 1 (JsMap.keys (clients r))).
  { intros Hin. apply Hrange in Hin. lia. }
  assert (Hget : JsMap.get peer_id (clients r ++ [(peer_id, ws)]) = Some ws).
  { apply JsMapFacts.In_get.
    - unfold JsMap.keys. rewrite map_app. apply NoDup_app.
      split; [assumption|]. split; [|apply NoDup_singleton].
      intros x Hx Hx'. apply list_elem_of_In in Hx, Hx'.
      destruct Hx' as [<-|[]]. tauto.
    - apply in_or_app. right. now left. }
  split; [|split; [exact Hget|]].
  { subst s'. rewrite handleJoinRoom_rooms, Hr, Hacc.
    now rewrite (JsMapFacts.set_fresh _ _ _ Hfresh). }
  subst s'. unfold handleJoinRoom. rewrite Hr.
  unfold join_accepted in Hacc. apply andb_true_iff in Hacc as [Hpw Hcap].
  apply negb_true_iff in Hpw, Hcap. rewrite Hpw, Hcap.
  cbn [fst snd host clients password next_peer_id].
  rewrite session_after_setters. fold peer_id.
  rewrite (JsMapFacts.set_fresh _ _ _ Hfresh).
  split; [reflexivity|]. split; [|tauto].
  f_equal.
  - f_equal. f_equal. unfold JsMap.keys. rewrite map_app, List.filter_app. simpl.
    rewrite Z.eqb_refl. simpl. rewrite app_nil_r.
    now apply JsMapFacts.filter_other_keys.
  - f_equal. rewrite flat_map_app. simpl. rewrite Z.eqb_refl. simpl.
    rewrite app_nil_r.
    rewrite (JsMapFacts.notify_others peer_id
               (fun w => [Send w (peer_joined peer_id)]) _ Hfresh).
    apply broadcast_as_map.
Qed.

Lemma join_assigns_next_peer_id_witness :
  (handleJoinRoom three_peers 7%nat "r1" (Some "any")).2 =
  [Send 7%nat (room_joined "r1" 4 [2; 3]); Send 0%nat (peer_joined 4);
   Send 1%nat (peer_joined 4); Send 2%nat (peer_joined 4)].
Proof.
  refine (proj1 (proj2 (proj2 (proj2
    (join_assigns_next_peer_id three_peers 7%nat "r1" (Some "any")
       (Room 0%nat [(2, 1%nat); (3, 2%nat)] None 4)
       three_peers_reachable _ _))))).
  - vm_compute. reflexivity.
  - vm_compute. reflexivity.
Defined.

(** ** Rejected requests *)

(** C9. [create_room] for a name already in the registry answers the
    requester with the "Room already exists" error and returns the state it
    was given: registry, every room and every session are untouched. *)
Theorem create_existing_room_rejected s ws room_name pw r :
  rooms s !! room_name = Some r ->
  handleCreateRoom s ws room_name pw =
  (s, [Send ws (error "Room already exists")]).
Proof. intros Hr. unfold handleCreateRoom. now rewrite Hr. Qed.

Lemma create_existing_room_rejected_witness :
  rooms three_peers !! "r1" = Some (Room 0%nat [(2, 1%nat); (3, 2%nat)] None 4) /\
  handleCreateRoom three_peers 1%nat "r1" (Some "s3cret") =
  (three_peers, [Send 1%nat (error "Room already exists")]).
Proof.
  assert (H : rooms three_peers !! "r1" =
              Some (Room 0%nat [(2, 1%nat); (3, 2%nat)] None 4))
    by (vm_compute; reflexivity).
  split; [exact H|].
  exact (create_existing_room_rejected three_peers 1%nat "r1" (Some "s3cret") _ H).
Defined.

(** C8. [join_room] for a room that stores a non-empty password, with the
    password absent or different from the stored one, answers the requester
    with the "Wrong password" error and returns the state it was given: no
    peer id is allocated, the counter, the clients and the requester's
    session are untouched. *)
Theorem join_wrong_password_rejected s ws room_name pw r p :
  rooms s !! room_name = Some r ->
  password r = Some p ->
  p <> EmptyString ->
  pw <> Some p ->
  handleJoinRoom s ws room_name pw = (s, [Send ws (error "Wrong password")]).
Proof.
  intros Hr Hp Hne Hpw. unfold handleJoinRoom. rewrite Hr, Hp.
  apply truthy_str_Some in Hne. rewrite Hne.
  assert (Hneq : strict_neq (Some p) pw = true)
    by (apply strict_neq_true; congruence).
  now rewrite Hneq.
Qed.

Lemma join_wrong_password_rejected_witness :
  handleJoinRoom full_locked_room 5%nat "den" None =
    (full_locked_room, [Send 5%nat (error "Wrong password")]) /\
  handleJoinRoom full_locked_room 5%nat "den" (Some "PW") =
    (full_locked_room, [Send 5%nat (error "Wrong password")]).
Proof.
  assert (H : rooms full_locked_room !! "den" =
              Some (Room 0%nat [(2, 1%nat); (3, 2%nat); (4, 3%nat); (5, 4%nat)]
                         (Some "pw") 6))
    by (vm_compute; reflexivity).
  split.
  - apply (join_wrong_password_rejected full_locked_room 5%nat "den" None _ "pw" H);
      [reflexivity|discriminate|discriminate].
  - apply (join_wrong_password_rejected full_locked_room 5%nat "den" (Some "PW")
             _ "pw" H); [reflexivity|discriminate|discriminate].
Defined.

(** C7, as stated, fails: the password is tested before the capacity, so
    a request to a full room with a wrong password gets "Wrong password". *)
Lemma full_room_wrong_password_not_room_full :
  (exists r, rooms full_locked_room !! "den" = Some r /\
             JsMap.size (clients r) = 4%nat) /\
  handleJoinRoom full_locked_room 5%nat "den" (Some "guess") =
  (full_locked_room, [Send 5%nat (error "Wrong password")]).
Proof.
  split.
  - eexists. split; vm_compute; reflexivity.
  - unfold handleJoinRoom.
    replace (rooms full_locked_room !! "den")
      with (Some (Room 0%nat [(2, 1%nat); (3, 2%nat); (4, 3%nat); (5, 4%nat)]
                       (Some "pw") 6)) by (vm_compute; reflexivity).
    reflexivity.
Qed.

(** C7, amended. [join_room] for a room with 4 clients, when the room
    stores no password or the supplied password equals the stored one,
    answers the requester with the "Room is full" error and returns the
    state it was given. *)
Theorem join_full_room_rejected s ws room_name pw r :
  rooms s !! room_name = Some r ->
  password r = None \/ pw = password r ->
  JsMap.size (clients r) = 4%nat ->
  handleJoinRoom s ws room_name pw =
  (s, [Send ws (error "Room is full (max 5 players)")]).
Proof.
  intros Hr Hpw Hfull. unfold handleJoinRoom. rewrite Hr.
  assert (Htest : truthy_str (password r) && strict_neq (password r) pw = false).
  { apply password_test_false. destruct Hpw as [-> | ->]; auto. }
  now rewrite Htest, Hfull.
Qed.

Lemma join_full_room_rejected_witness :
  handleJoinRoom full_locked_room 5%nat "den" (Some "pw") =
    (full_locked_room, [Send 5%nat (error "Room is full (max 5 players)")]).
Proof.
  assert (H : rooms full_locked_room !! "den" =
              Some (Room 0%nat [(2, 1%nat); (3, 2%nat); (4, 3%nat); (5, 4%nat)]
                         (Some "pw") 6))
    by (vm_compute; reflexivity).
  apply (join_full_room_rejected full_locked_room 5%nat "den" (Some "pw") _ H);
    [right; reflexivity|reflexivity].
Defined.

(** ** Disconnect cleanup *)

(** C5. Cleanup for the host of a room in the registry sends
    [host_disconnected] to every client of the room and closes it (in
    client order), removes the room from the registry and changes nothing
    else; a [join_room] for that name then gets "Room not found". *)
Theorem host_cleanup_closes_room s room_name ws peer_id r :
  rooms s !! room_name = Some r ->
  let s' := (cleanupConnection s room_name ws true peer_id).1 in
  let out := (cleanupConnection s room_name ws true peer_id).2 in
  out = flat_map (fun client => [Send client host_disconnected; Close client])
                 (JsMap.values (clients r)) /\
  (forall k client, In (k, client) (clients r) ->
     In (Send client host_disconnected) out /\ In (Close client) out) /\
  rooms s' = delete room_name (rooms s) /\
  sessions s' = sessions s /\
  forall ws' pw,
    handleJoinRoom s' ws' room_name pw = (s', [Send ws' (error "Room not found")]).
Proof.
  intros Hr. unfold cleanupConnection. rewrite Hr. cbn [fst snd].
  split; [reflexivity|]. split; [|split; [reflexivity|split; [reflexivity|]]].
  - intros k client Hin.
    assert (Hv : In client (JsMap.values (clients r))).
    { change client with (snd (k, client)). now apply in_map. }
    split; apply in_flat_map; exists client; simpl; auto.
  - intros ws' pw. unfold handleJoinRoom, with_rooms. cbn [rooms].
    now rewrite lookup_delete_eq.
Qed.

Lemma host_cleanup_closes_room_witness :
  (cleanupConnection three_peers "r1" 0%nat true 1).2 =
  [Send 1%nat host_disconnected; Close 1%nat;
   Send 2%nat host_disconnected; Close 2%nat].
Proof.
  refine (proj1 (host_cleanup_closes_room three_peers "r1" 0%nat 1
                   (Room 0%nat [(2, 1%nat); (3, 2%nat)] None 4) _)).
  vm_compute. reflexivity.
Defined.

(* The close event of an open connection that hosts a room with a
   non-empty name runs the host cleanup for that room. *)
Lemma close_event_runs_host_cleanup s ws n pid :
  sessions s !! ws = Some (Session (Some n) true pid) ->
  n <> EmptyString ->
  (step s (EvClose ws)).2 = (cleanupConnection s n ws true pid).2 /\
  rooms (step s (EvClose ws)).1 = rooms (cleanupConnection s n ws true pid).1.
Proof.
  intros Hws Hn. apply truthy_str_Some in Hn.
  cbn [step]. rewrite Hws. unfold on_close, session_of.
  rewrite Hws. cbn [default id currentRoom isHost peerId].
  rewrite Hn.
  now destruct (cleanupConnection s n ws true pid).
Qed.

(** C2, as stated, fails in the client branch: the room is still there on
    the second call, which notifies the host and the remaining clients
    again. *)
Lemma second_client_cleanup_notifies_again :
  let s1 := (cleanupConnection three_peers "r1" 1%nat false 2).1 in
  (cleanupConnection three_peers "r1" 1%nat false 2).2 =
    [Send 0%nat (peer_left 2); Send 2%nat (peer_left 2)] /\
  (cleanupConnection s1 "r1" 1%nat false 2).2 =
    [Send 0%nat (peer_left 2); Send 2%nat (peer_left 2)].
Proof. split; vm_compute; reflexivity. Qed.

(** C2, amended. A second cleanup with the same arguments returns the state
    the first one left. For the host it sends nothing. For a client it
    sends nothing when the room is not in the registry, and otherwise sends
    [peer_left] to the host and to every client of the room, as the first
    call did. *)
Theorem cleanup_twice s room_name ws is_host peer_id :
  let s1 := (cleanupConnection s room_name ws is_host peer_id).1 in
  let again := cleanupConnection s1 room_name ws is_host peer_id in
  again.1 = s1 /\
  again.2 =
    if is_host then []
    else match rooms s1 !! room_name with
         | None => []
         | Some r =>
             Send (host r) (peer_left peer_id)
             :: map (fun client => Send client (peer_left peer_id))
                    (JsMap.values (clients r))
         end.
Proof.
  cbn zeta. unfold cleanupConnection.
  destruct (rooms s !! room_name) as [r|] eqn:Hr.
  - destruct is_host; cbn [fst snd with_rooms rooms].
    + now rewrite lookup_delete_eq.
    + rewrite lookup_insert_eq. cbn [fst snd host clients password next_peer_id].
      rewrite JsMapFacts.delete_delete. split; [|reflexivity].
      unfold with_rooms. cbn [rooms sessions next_conn].
      now rewrite insert_insert_eq.
  - cbn [fst snd]. rewrite Hr. now destruct is_host.
Qed.

(** ** Signal routing *)

(** Routing from a connection whose current room has a non-empty name and
    is in the registry: a client's signal goes to the host alone, with the
    client's peer id; the host's signal goes to the one targeted client, to
    nobody when the (non-zero) target is not a client, to every client when
    there is no target (or the target is 0). The state is returned as
    given. *)
Lemma handleSignal_routes s ws data target n r :
  getCurrentRoom s ws = Some n ->
  n <> EmptyString ->
  rooms s !! n = Some r ->
  handleSignal s ws data target =
  (s,
   if getIsHost s ws then
     match target with
     | Some t =>
         if t =? 0 then
           map (fun client => Send client (signal_from data 1))
               (JsMap.values (clients r))
         else
           match JsMap.get t (clients r) with
           | Some client => [Send client (signal_from data 1)]
           | None => []
           end
     | None =>
         map (fun client => Send client (signal_from data 1))
             (JsMap.values (clients r))
     end
   else [Send (host r) (signal_from data (getPeerId s ws))]).
Proof.
  intros Hcur Hne Hr. unfold handleSignal. rewrite Hcur.
  apply truthy_str_Some in Hne. rewrite Hne. cbn [negb mbind option_bind].
  rewrite Hr. destruct (getIsHost s ws); [|reflexivity].
  destruct target as [t|]; cbn [truthy_num andb negb mbind option_bind];
    [|reflexivity].
  destruct (Z.eqb_spec t 0) as [->|Hz]; cbn [negb andb]; [reflexivity|].
  destruct (JsMap.has t (clients r)) eqn:Hhas.
  - apply JsMapFacts.has_get in Hhas as [w Hw]. now rewrite Hw.
  - destruct (JsMap.get t (clients r)) as [w|] eqn:Hw; [|reflexivity].
    assert (JsMap.has t (clients r) = true)
      by (apply JsMapFacts.has_get; eauto).
    congruence.
Qed.

(** C3 at a room named by the empty string. The room is in the registry,
    connection 0 is its host and connection 1 its client with peer id 2,
    yet [handleSignal] relays nothing in either direction: the empty room
    name read back from the connection is falsy and takes the early
    return. *)
Theorem signal_dropped_in_empty_named_room :
  rooms unnamed_room !! EmptyString = Some (Room 0%nat [(2, 1%nat)] None 3) /\
  session_of unnamed_room 0%nat = Session (Some EmptyString) true 1 /\
  session_of unnamed_room 1%nat = Session (Some EmptyString) false 2 /\
  handleSignal unnamed_room 1%nat "offer" None = (unnamed_room, []) /\
  handleSignal unnamed_room 0%nat "answer" (Some 2) = (unnamed_room, []) /\
  handleSignal unnamed_room 0%nat "answer" None = (unnamed_room, []).
Proof. repeat split; vm_compute; reflexivity. Qed.

(* The close handler takes the same early exit: when the host of the room
   named by the empty string disconnects, [cleanupConnection] is not
   called and the room stays in the registry. *)
Lemma close_skips_empty_named_room :
  (step unnamed_room (EvClose 0%nat)).2 = [] /\
  rooms (step unnamed_room (EvClose 0%nat)).1 !! EmptyString =
  Some (Room 0%nat [(2, 1%nat)] None 3).
Proof. split; vm_compute; reflexivity. Qed.

(** ** Requests from a connection that is already in a room *)

(** C6, as stated, fails: neither handler looks at the connection's
    current room. The host of "a" creates "b" as well, and the client of
    "a" joins "b" while still listed in "a". *)
Lemma second_room_accepted :
  let s1 := (step hosting_a (EvMessage 0%nat (create_room "b" None))).1 in
  let s2 := (step s1 (EvMessage 1%nat (join_room "b" None))).1 in
  reachable hosting_a /\
  getCurrentRoom hosting_a 0%nat = Some "a" /\
  getCurrentRoom hosting_a 1%nat = Some "a" /\
  (step hosting_a (EvMessage 0%nat (create_room "b" None))).2 =
    [Send 0%nat (room_created "b" 1)] /\
  rooms hosting_a !! "b" = None /\
  rooms s1 !! "b" = Some (Room 0%nat [] None 2) /\
  (step s1 (EvMessage 1%nat (join_room "b" None))).2 =
    [Send 1%nat (room_joined "b" 2 []); Send 0%nat (peer_joined 2)] /\
  rooms s2 !! "a" = Some (Room 0%nat [(2, 1%nat)] None 3) /\
  rooms s2 !! "b" = Some (Room 0%nat [(2, 1%nat)] None 3).
Proof.
  cbn zeta. split; [apply run_reachable, reachable_init|].
  repeat split; vm_compute; reflexivity.
Qed.

(** C6, amended. [create_room] and [join_room] are decided by the registry
    alone, whatever room the requesting connection already has:
    [create_room] is rejected exactly when the name is taken, [join_room]
    exactly when the room is missing, the password test fails or the room
    is full. A rejected request returns the state as given; an accepted one
    creates or joins the room and overwrites the connection's room, role
    and peer id. *)
Theorem create_join_decided_by_registry s ws n pw :
  match rooms s !! n with
  | Some _ =>
      handleCreateRoom s ws n pw = (s, [Send ws (error "Room already exists")])
  | None =>
      (handleCreateRoom s ws n pw).2 = [Send ws (room_created n 1)] /\
      rooms (handleCreateRoom s ws n pw).1 =
        <[n := Room ws [] (if truthy_str pw then pw else None) 2]> (rooms s) /\
      session_of (handleCreateRoom s ws n pw).1 ws = Session (Some n) true 1
  end /\
  match rooms s !! n with
  | None => handleJoinRoom s ws n pw = (s, [Send ws (error "Room not found")])
  | Some r =>
      if join_accepted r pw then
        assigned_id n (handleJoinRoom s ws n pw).2 = Some (next_peer_id r) /\
        rooms (handleJoinRoom s ws n pw).1 =
          <[n := Room (host r) (JsMap.set (next_peer_id r) ws (clients r))
                      (password r) (next_peer_id r + 1)]> (rooms s) /\
        session_of (handleJoinRoom s ws n pw).1 ws =
          Session (Some n) false (next_peer_id r)
      else
        (handleJoinRoom s ws n pw).1 = s /\
        exists msg, (handleJoinRoom s ws n pw).2 = [Send ws (error msg)]
  end.
Proof.
  split.
  - unfold handleCreateRoom. destruct (rooms s !! n); [reflexivity|].
    cbn [fst snd]. rewrite session_after_setters. auto.
  - pose proof (handleJoinRoom_rooms s ws n pw) as Hrooms.
    unfold handleJoinRoom in *. unfold join_accepted in *.
    destruct (rooms s !! n) as [r|]; [|reflexivity].
    destruct (truthy_str (password r) && strict_neq (password r) pw);
      cbn [negb andb] in *; [eauto|].
    destruct (4 <=? JsMap.size (clients r))%nat; cbn [negb andb] in *; [eauto|].
    cbn [fst snd host clients password next_peer_id] in *.
    rewrite session_after_setters. cbn [assigned_id].
    rewrite String.eqb_refl. auto.
Qed.

(** ** Rooms created with the empty string as password *)

(** C10, as stated, fails: the room created with the empty string as
    password stores [null], yet the fifth join is rejected - for capacity. *)
Lemma open_room_join_rejected_when_full :
  rooms full_open_room !! "hall" =
    Some (Room 0%nat [(2, 1%nat); (3, 2%nat); (4, 3%nat); (5, 4%nat)] None 6) /\
  handleJoinRoom full_open_room 5%nat "hall" (Some EmptyString) =
    (full_open_room, [Send 5%nat (error "Room is full (max 5 players)")]).
Proof. split; vm_compute; reflexivity. Qed.

(** C10, amended. Creating a room with the empty string as password
    stores [null] and is the same as creating it with no password. For as
    long as that room stays in the registry its stored password is [null],
    and a [join_room] for it never gets "Wrong password": whatever password
    is supplied the result is that of a join with no password, and the join
    succeeds (the joiner is sent [room_joined] with the room's
    [next_peer_id]) whenever the room has fewer than 4 clients. *)
Theorem empty_password_is_no_password s ws n :
  rooms s !! n = None ->
  let s1 := (handleCreateRoom s ws n (Some EmptyString)).1 in
  (exists r, rooms s1 !! n = Some r /\ password r = None) /\
  handleCreateRoom s ws n (Some EmptyString) = handleCreateRoom s ws n None /\
  forall evs, room_alive n s1 evs = true ->
    exists r, rooms (run s1 evs) !! n = Some r /\ password r = None /\
      forall ws' pw,
        (handleJoinRoom (run s1 evs) ws' n pw).2 <> [Send ws' (error "Wrong password")] /\
        handleJoinRoom (run s1 evs) ws' n pw = handleJoinRoom (run s1 evs) ws' n None /\
        ((JsMap.size (clients r) < 4)%nat ->
         assigned_id n (handleJoinRoom (run s1 evs) ws' n pw).2 =
           Some (next_peer_id r)).
Proof.
  intros Hn s1.
  assert (Hs1 : rooms s1 !! n = Some (Room ws [] None 2)).
  { subst s1. rewrite handleCreateRoom_rooms, Hn. cbn [truthy_str String.eqb negb].
    apply lookup_insert_eq. }
  split; [eauto|]. split; [reflexivity|].
  intros evs Halive.
  destruct (room_lifetime evs s1 n _ Hs1 Halive) as (r & Hr & _ & Hpw & _).
  cbn [password] in Hpw. exists r. split; [assumption|]. split; [assumption|].
  intros ws' pw. unfold handleJoinRoom. rewrite Hr, Hpw.
  cbn [truthy_str andb].
  destruct (Nat.leb_spec 4 (JsMap.size (clients r))) as [Hfull|Hroom].
  - repeat split; [discriminate|lia].
  - repeat split; [discriminate|]. intros _.
    cbn [snd assigned_id]. now rewrite String.eqb_refl.
Qed.

Lemma empty_password_is_no_password_witness :
  exists r, rooms (handleCreateRoom init 0%nat "hall" (Some EmptyString)).1 !! "hall" = Some r /\
            password r = None.
Proof.
  refine (proj1 (empty_password_is_no_password init 0%nat "hall" _)).
  vm_compute. reflexivity.
Defined.

(** * Further properties of the handlers *)

(** ** What each handler does to the sessions *)

Lemma sessions_after_setters s ws n h id :
  sessions (setPeerId ws id (setIsHost ws h (setCurrentRoom ws n s))) =
  <[ws := Session (Some n) h id]> (sessions s).
Proof.
  unfold setPeerId, setIsHost, setCurrentRoom, with_session, session_of.
  cbn [sessions rooms next_conn]. rewrite !lookup_insert_eq.
  cbn [default currentRoom isHost peerId]. now rewrite !insert_insert_eq.
Qed.

Lemma handleCreateRoom_sessions s ws n pw :
  sessions (handleCreateRoom s ws n pw).1 =
  match rooms s !! n with
  | Some _ => sessions s
  | None => <[ws := Session (Some n) true 1]> (sessions s)
  end.
Proof.
  unfold handleCreateRoom. destruct (rooms s !! n); [reflexivity|].
  cbn [fst]. now rewrite sessions_after_setters.
Qed.

Lemma handleJoinRoom_sessions s ws n pw :
  sessions (handleJoinRoom s ws n pw).1 =
  match rooms s !! n with
  | Some r =>
      if join_accepted r pw
      then <[ws := Session (Some n) false (next_peer_id r)]> (sessions s)
      else sessions s
  | None => sessions s
  end.
Proof.
  unfold handleJoinRoom, join_accepted.
  destruct (rooms s !! n) as [r|]; [|reflexivity].
  destruct (truthy_str (password r) && strict_neq (password r) pw);
    [reflexivity|].
  destruct (4 <=? JsMap.size (clients r))%nat; [reflexivity|].
  cbn [fst negb andb]. now rewrite sessions_after_setters.
Qed.

Lemma cleanupConnection_sessions s n ws is_host pid :
  sessions (cleanupConnection s n ws is_host pid).1 = sessions s.
Proof.
  unfold cleanupConnection. destruct (rooms s !! n); [|reflexivity].
  now destruct is_host.
Qed.

Lemma on_close_sessions s ws :
  sessions (on_close s ws).1 = delete ws (sessions s).
Proof.
  unfold on_close. destruct (currentRoom (session_of s ws)) as [n|]; [|reflexivity].
  destruct (truthy_str (Some n)); [|reflexivity].
  pose proof (cleanupConnection_sessions s n ws (isHost (session_of s ws))
                (peerId (session_of s ws))) as H.
  destruct (cleanupConnection s n ws _ _) as [s' out]. cbn [fst sessions] in *.
  now rewrite H.
Qed.

(* The registry after the close event of an open connection. *)
Lemma on_close_rooms_open s ws σ :
  sessions s !! ws = Some σ ->
  rooms (on_close s ws).1 =
  match currentRoom σ with
  | Some n =>
      if truthy_str (Some n)
      then rooms (cleanupConnection s n ws (isHost σ) (peerId σ)).1
      else rooms s
  | None => rooms s
  end.
Proof.
  intros Hws. unfold on_close, session_of. rewrite Hws. cbn [default id].
  destruct (currentRoom σ) as [n|]; [|reflexivity].
  destruct (truthy_str (Some n)); [|reflexivity].
  now destruct (cleanupConnection s n ws _ _).
Qed.

Lemma on_close_out_open s ws σ :
  sessions s !! ws = Some σ ->
  (on_close s ws).2 =
  match currentRoom σ with
  | Some n =>
      if truthy_str (Some n)
      then (cleanupConnection s n ws (isHost σ) (peerId σ)).2
      else []
  | None => []
  end.
Proof.
  intros Hws. unfold on_close, session_of. rewrite Hws. cbn [default id].
  destruct (currentRoom σ) as [n|]; [|reflexivity].
  destruct (truthy_str (Some n)); [|reflexivity].
  now destruct (cleanupConnection s n ws _ _).
Qed.

(** ** Invariants of the reachable states *)

Lemma reachable_session_inv s :
  reachable s -> forall ws σ, sessions s !! ws = Some σ -> session_inv σ.
Proof.
  induction 1 as [|s e Hs IH]; intros ws σ.
  - cbn. rewrite lookup_empty. discriminate.
  - destruct e as [|ws0 m|ws0]; cbn [step].
    + cbn [on_connection fst sessions]. intros Hσ.
      apply lookup_insert_Some in Hσ as [[_ <-]|[_ Hσ]]; [|eauto].
      unfold session_inv. cbn. auto.
    + destruct (sessions s !! ws0) as [σ0|] eqn:Hws0; [|apply IH].
      destruct m as [n0 pw|n0 pw|data target|]; cbn [on_message].
      * rewrite handleCreateRoom_sessions.
        destruct (rooms s !! n0); [apply IH|]. intros Hσ.
        apply lookup_insert_Some in Hσ as [[_ <-]|[_ Hσ]]; [|eauto].
        unfold session_inv. cbn. reflexivity.
      * rewrite handleJoinRoom_sessions.
        destruct (rooms s !! n0) as [r0|] eqn:Hr0; [|apply IH].
        destruct (join_accepted r0 pw); [|apply IH]. intros Hσ.
        apply lookup_insert_Some in Hσ as [[_ <-]|[_ Hσ]]; [|eauto].
        destruct (reachable_room_inv s Hs n0 r0 Hr0) as (_ & _ & Hnext & _).
        unfold session_inv. cbn. exact Hnext.
      * rewrite handleSignal_state. apply IH.
      * apply IH.
    + destruct (sessions s !! ws0) as [σ0|] eqn:Hws0; [|apply IH].
      rewrite on_close_sessions. intros Hσ.
      apply lookup_delete_Some in Hσ as [_ Hσ]. eauto.
Qed.

Lemma reachable_host_inv s : reachable s -> host_inv s.
Proof.
  induction 1 as [|s e Hs IH]; intros ws σ n.
  - cbn. rewrite lookup_empty. discriminate.
  - destruct e as [|ws0 m|ws0]; cbn [step].
    + cbn [on_connection fst sessions rooms]. intros Hσ Hn Hh.
      apply lookup_insert_Some in Hσ as [[_ <-]|[_ Hσ]]; [discriminate|].
      exact (IH ws σ n Hσ Hn Hh).
    + destruct (sessions s !! ws0) as [σ0|] eqn:Hws0; [|apply IH].
      destruct m as [n0 pw|n0 pw|data target|]; cbn [on_message].
      * rewrite handleCreateRoom_sessions, handleCreateRoom_rooms.
        destruct (rooms s !! n0) eqn:Hn0; [apply IH|]. intros Hσ Hn Hh.
        apply lookup_insert_Some in Hσ as [[<- <-]|[Hne Hσ]].
        -- cbn in Hn. injection Hn as <-. rewrite lookup_insert_eq. eauto.
        -- destruct (IH ws σ n Hσ Hn Hh) as (r & Hr & Hhost).
           exists r. split; [|assumption].
           rewrite lookup_insert_ne by congruence. assumption.
      * rewrite handleJoinRoom_sessions, handleJoinRoom_rooms.
        destruct (rooms s !! n0) as [r0|] eqn:Hr0; [|apply IH].
        destruct (join_accepted r0 pw); [|apply IH]. intros Hσ Hn Hh.
        apply lookup_insert_Some in Hσ as [[_ <-]|[Hne Hσ]]; [discriminate|].
        destruct (IH ws σ n Hσ Hn Hh) as (r & Hr & Hhost).
        destruct (decide (n0 = n)) as [->|Hnn].
        -- rewrite lookup_insert_eq. eexists. split; [reflexivity|].
           cbn. congruence.
        -- rewrite lookup_insert_ne by assumption. eauto.
      * rewrite handleSignal_state. apply IH.
      * apply IH.
    + destruct (sessions s !! ws0) as [σ0|] eqn:Hws0; [|apply IH].
      rewrite on_close_sessions, (on_close_rooms_open s ws0 σ0 Hws0).
      intros Hσ Hn Hh. apply lookup_delete_Some in Hσ as [Hne Hσ].
      destruct (IH ws σ n Hσ Hn Hh) as (r & Hr & Hhost).
      destruct (currentRoom σ0) as [n0|] eqn:Hn0; [|eauto].
      destruct (truthy_str (Some n0)); [|eauto].
      rewrite cleanupConnection_rooms.
      destruct (rooms s !! n0) as [r0|] eqn:Hr0; [|eauto].
      destruct (isHost σ0) eqn:Hh0.
      * destruct (IH ws0 σ0 n0 Hws0 Hn0 Hh0) as (r0' & Hr0' & Hhost0).
        destruct (decide (n0 = n)) as [->|Hnn]; [congruence|].
        rewrite lookup_delete_ne by assumption. eauto.
      * destruct (decide (n0 = n)) as [->|Hnn].
        -- rewrite lookup_insert_eq. eexists. split; [reflexivity|].
           cbn. congruence.
        -- rewrite lookup_insert_ne by assumption. eauto.
Qed.

Lemma sample_reachable evs : reachable (run init evs).
Proof. apply run_reachable, reachable_init. Qed.

(** X1. Capacity: in every reachable state every room has at most four
    clients. *)
Theorem rooms_hold_at_most_four_clients s n r :
  reachable s ->
  rooms s !! n = Some r ->
  (JsMap.size (clients r) <= 4)%nat.
Proof.
  intros Hs Hr. now destruct (reachable_room_inv s Hs n r Hr) as (_ & _ & _ & H & _).
Qed.

Lemma rooms_hold_at_most_four_clients_witness :
  le (JsMap.size [(2, 1%nat); (3, 2%nat); (4, 3%nat); (5, 4%nat)]) 4.
Proof.
  refine (rooms_hold_at_most_four_clients full_locked_room "den"
            (Room 0%nat [(2, 1%nat); (3, 2%nat); (4, 3%nat); (5, 4%nat)]
                  (Some "pw") 6) (sample_reachable _) _).
  vm_compute. reflexivity.
Defined.

(** X2. In every reachable state the password stored in a room is [null]
    or a non-empty string, so a supplied password passes the test of
    [handleJoinRoom] exactly when the room stores no password or the two
    are equal. *)
Theorem stored_password_null_or_nonempty s n r pw :
  reachable s ->
  rooms s !! n = Some r ->
  password r <> Some EmptyString /\
  (truthy_str (password r) && strict_neq (password r) pw = false <->
   password r = None \/ pw = password r).
Proof.
  intros Hs Hr.
  destruct (reachable_room_inv s Hs n r Hr) as (_ & _ & _ & _ & Hpw).
  split.
  - intros Heq. rewrite Heq in Hpw. destruct Hpw as [Hpw|Hpw]; discriminate.
  - rewrite password_test_false. split; intros [H|H]; auto.
    + destruct Hpw as [Hpw|Hpw]; [auto|congruence].
    + left. now rewrite H.
Qed.

Lemma stored_password_null_or_nonempty_witness :
  rooms full_open_room !! "hall" =
    Some (Room 0%nat [(2, 1%nat); (3, 2%nat); (4, 3%nat); (5, 4%nat)] None 6) /\
  password (Room 0%nat [(2, 1%nat); (3, 2%nat); (4, 3%nat); (5, 4%nat)] None 6)
    <> Some EmptyString.
Proof.
  assert (H : rooms full_open_room !! "hall" =
    Some (Room 0%nat [(2, 1%nat); (3, 2%nat); (4, 3%nat); (5, 4%nat)] None 6))
    by (vm_compute; reflexivity).
  split; [exact H|].
  exact (proj1 (stored_password_null_or_nonempty full_open_room "hall" _ None
                  (sample_reachable _) H)).
Defined.



(** X4. A room leaves the registry only through the close event of its own
    host: if a room of a reachable state is gone after an event, the event
    is the close of the room's host, whose connection is open and marked
    host of that room, the room's name is not the empty string, and the
    output is [host_disconnected] and a close for every client. *)
Theorem only_host_close_removes_room s e n r :
  reachable s ->
  rooms s !! n = Some r ->
  rooms (step s e).1 !! n = None ->
  e = EvClose (host r) /\
  sessions s !! host r = Some (Session (Some n) true 1) /\
  n <> EmptyString /\
  (step s e).2 =
    flat_map (fun client => [Send client host_disconnected; Close client])
             (JsMap.values (clients r)).
Proof.
  intros Hs Hr. destruct e as [|ws0 m|ws0]; cbn [step].
  - cbn. congruence.
  - destruct (sessions s !! ws0) as [σ0|] eqn:Hws0; [|cbn; congruence].
    destruct m as [n0 pw|n0 pw|data target|]; cbn [on_message].
    + rewrite handleCreateRoom_rooms.
      destruct (rooms s !! n0) eqn:Hn0; [congruence|].
      rewrite lookup_insert_ne by congruence. congruence.
    + rewrite handleJoinRoom_rooms.
      destruct (rooms s !! n0) as [r0|] eqn:Hr0; [|congruence].
      destruct (join_accepted r0 pw); [|congruence].
      destruct (decide (n0 = n)) as [->|Hnn].
      * rewrite lookup_insert_eq. discriminate.
      * rewrite lookup_insert_ne by assumption. congruence.
    + rewrite handleSignal_state. congruence.
    + cbn. congruence.
  - destruct (sessions s !! ws0) as [σ0|] eqn:Hws0; [|cbn; congruence].
    rewrite (on_close_rooms_open s ws0 σ0 Hws0), (on_close_out_open s ws0 σ0 Hws0).
    pose proof (reachable_session_inv s Hs ws0 σ0 Hws0) as Hinv.
    unfold session_inv in Hinv.
    destruct (currentRoom σ0) as [n0|] eqn:Hn0; [|congruence].
    destruct (truthy_str (Some n0)) eqn:Htruthy; [|congruence].
    rewrite cleanupConnection_rooms. unfold cleanupConnection.
    destruct (rooms s !! n0) as [r0|] eqn:Hr0; [|congruence].
    destruct (isHost σ0) eqn:Hh0.
    + destruct (decide (n0 = n)) as [->|Hnn].
      2:{ rewrite lookup_delete_ne by assumption. congruence. }
      intros _. assert (r0 = r) as -> by congruence.
      destruct (reachable_host_inv s Hs ws0 σ0 n Hws0 Hn0 Hh0)
        as (r' & Hr' & Hhost).
      assert (r' = r) as -> by congruence. subst ws0.
      split; [reflexivity|]. split.
      * rewrite Hws0. destruct σ0 as [c h p]. cbn in *. congruence.
      * split; [now apply truthy_str_Some|reflexivity].
    + destruct (decide (n0 = n)) as [->|Hnn].
      * rewrite lookup_insert_eq. discriminate.
      * rewrite lookup_insert_ne by assumption. congruence.
Qed.

Lemma only_host_close_removes_room_witness :
  EvClose 0%nat = EvClose (host (Room 0%nat [(2, 1%nat); (3, 2%nat)] None 4)).
Proof.
  refine (proj1 (only_host_close_removes_room three_peers (EvClose 0%nat) "r1"
                   (Room 0%nat [(2, 1%nat); (3, 2%nat)] None 4)
                   (sample_reachable _) _ _)).
  - vm_compute. reflexivity.
  - vm_compute. reflexivity.
Defined.

(** ** What the handlers leave alone *)

(** X5. A request or cleanup that names room [n0] leaves every other room
    of the registry exactly as it was. *)
Theorem handlers_touch_only_named_room s ws n0 pw is_host pid n :
  n <> n0 ->
  rooms (handleCreateRoom s ws n0 pw).1 !! n = rooms s !! n /\
  rooms (handleJoinRoom s ws n0 pw).1 !! n = rooms s !! n /\
  rooms (cleanupConnection s n0 ws is_host pid).1 !! n = rooms s !! n.
Proof.
  intros Hne.
  rewrite handleCreateRoom_rooms, handleJoinRoom_rooms, cleanupConnection_rooms.
  destruct (rooms s !! n0) as [r0|]; repeat split; try reflexivity.
  - destruct (join_accepted r0 pw); [|reflexivity].
    now rewrite lookup_insert_ne by congruence.
  - destruct is_host.
    + now rewrite lookup_delete_ne by congruence.
    + now rewrite lookup_insert_ne by congruence.
  - now rewrite lookup_insert_ne by congruence.
Qed.

Lemma handlers_touch_only_named_room_witness :
  rooms (cleanupConnection (step hosting_a (EvMessage 0%nat (create_room "b" None))).1
           "b" 0%nat true 1).1 !! "a" =
  rooms (step hosting_a (EvMessage 0%nat (create_room "b" None))).1 !! "a".
Proof.
  refine (proj2 (proj2 (handlers_touch_only_named_room _ 0%nat "b" None true 1 "a" _))).
  discriminate.
Defined.

(** X6. A message or close event of one connection never changes the
    closure variables of another connection; the close event discards those
    of the closing connection. *)
Theorem events_touch_only_own_session s ws m ws' :
  ws' <> ws ->
  sessions (step s (EvMessage ws m)).1 !! ws' = sessions s !! ws' /\
  sessions (step s (EvClose ws)).1 !! ws' = sessions s !! ws' /\
  sessions (step s (EvClose ws)).1 !! ws = None.
Proof.
  intros Hne. cbn [step]. repeat split.
  - destruct (sessions s !! ws); [|reflexivity].
    destruct m as [n0 pw|n0 pw|data target|]; cbn [on_message].
    + rewrite handleCreateRoom_sessions. destruct (rooms s !! n0); [reflexivity|].
      now rewrite lookup_insert_ne by congruence.
    + rewrite handleJoinRoom_sessions.
      destruct (rooms s !! n0) as [r0|]; [|reflexivity].
      destruct (join_accepted r0 pw); [|reflexivity].
      now rewrite lookup_insert_ne by congruence.
    + now rewrite handleSignal_state.
    + reflexivity.
  - destruct (sessions s !! ws); [|reflexivity].
    rewrite on_close_sessions. now rewrite lookup_delete_ne by congruence.
  - destruct (sessions s !! ws) eqn:Hws; [|exact Hws].
    rewrite on_close_sessions. apply lookup_delete_eq.
Qed.

Lemma events_touch_only_own_session_witness :
  sessions (step three_peers (EvClose 0%nat)).1 !! 1%nat =
  sessions three_peers !! 1%nat.
Proof.
  refine (proj1 (proj2 (events_touch_only_own_session three_peers 0%nat
                          unrecognized 1%nat _))).
  discriminate.
Defined.

(** ** What the handlers send *)

(* Every action of [handleSignal] is a relay of the unmodified payload
   inside the sender's current room: from a host to one of its clients with
   peer id 1, from anyone else to the room's host with the sender's id. *)
Lemma handleSignal_out s ws data target a :
  In a (handleSignal s ws data target).2 ->
  exists n r, getCurrentRoom s ws = Some n /\ n <> EmptyString /\
    rooms s !! n = Some r /\
    ((getIsHost s ws = true /\
      exists client, In client (JsMap.values (clients r)) /\
                     a = Send client (signal_from data 1)) \/
     (getIsHost s ws = false /\
      a = Send (host r) (signal_from data (getPeerId s ws)))).
Proof.
  destruct (getCurrentRoom s ws) as [n|] eqn:Hcur.
  2:{ unfold handleSignal. rewrite Hcur. cbn. tauto. }
  destruct (String.eqb_spec n EmptyString) as [->|Hn].
  { unfold handleSignal. rewrite Hcur. cbn. tauto. }
  destruct (rooms s !! n) as [r|] eqn:Hr.
  2:{ unfold handleSignal. rewrite Hcur. apply truthy_str_Some in Hn.
      rewrite Hn. cbn [negb mbind option_bind]. rewrite Hr. cbn. tauto. }
  rewrite (handleSignal_routes s ws data target n r Hcur Hn Hr). cbn [snd].
  intros Hin. exists n, r. repeat split; try assumption.
  destruct (getIsHost s ws); [left|right]; (split; [reflexivity|]).
  - assert (Hbroadcast : forall a,
      In a (map (fun client => Send client (signal_from data 1))
                (JsMap.values (clients r))) ->
      exists client, In client (JsMap.values (clients r)) /\
                     a = Send client (signal_from data 1)).
    { intros a' Ha. apply in_map_iff in Ha as (c & <- & Hc). eauto. }
    destruct target as [t|]; [|auto].
    destruct (t =? 0); [auto|].
    destruct (JsMap.get t (clients r)) as [w|] eqn:Hw; [|destruct Hin].
    destruct Hin as [<-|[]]. exists w. split; [|reflexivity].
    apply JsMapFacts.get_In in Hw. change w with (snd (t, w)).
    now apply in_map.
  - now destruct Hin as [<-|[]].
Qed.

(** X7. Signals stay inside the sender's room and are relayed unmodified:
    [handleSignal] returns the state it was given, and every action it
    emits is a [signal] envelope with the payload it received, sent either
    by a host (from_peer_id 1) to a client of its current room, or by a
    non-host to the host of its current room and to nobody else, with the
    sender's own peer id. *)
Theorem signals_stay_in_room s ws data target :
  (handleSignal s ws data target).1 = s /\
  forall a, In a (handleSignal s ws data target).2 ->
    exists n r, getCurrentRoom s ws = Some n /\ rooms s !! n = Some r /\
      if getIsHost s ws
      then exists client, In client (JsMap.values (clients r)) /\
                          a = Send client (signal_from data 1)
      else a = Send (host r) (signal_from data (getPeerId s ws)).
Proof.
  split; [apply handleSignal_state|]. intros a Ha.
  destruct (handleSignal_out s ws data target a Ha)
    as (n & r & Hcur & _ & Hr & [[Hh H]|[Hh H]]);
    exists n, r; rewrite Hh; auto.
Qed.

(** X8. A signal from a connection with no room, with the empty string as
    room name, or whose room is no longer in the registry is dropped:
    nothing is sent, not even an error, and the state is unchanged. *)
Theorem signal_without_room_dropped s ws data target :
  getCurrentRoom s ws = None \/
  getCurrentRoom s ws = Some EmptyString \/
  (exists n, getCurrentRoom s ws = Some n /\ rooms s !! n = None) ->
  handleSignal s ws data target = (s, []).
Proof.
  unfold handleSignal. intros [H|[H|(n & H & Hn)]]; rewrite H; try reflexivity.
  destruct (truthy_str (Some n)); cbn [negb mbind option_bind]; [|reflexivity].
  now rewrite Hn.
Qed.

Lemma signal_without_room_dropped_witness :
  handleSignal (step three_peers (EvClose 0%nat)).1 1%nat "late offer" None =
  ((step three_peers (EvClose 0%nat)).1, []).
Proof.
  apply signal_without_room_dropped. right. right. exists "r1".
  split; vm_compute; reflexivity.
Defined.

(** X9. Routing table of [handleSignal] for a sender whose current room has
    a non-empty name and is in the registry. A non-host's signal goes to
    the room's host only. A host's signal with no target, or with target 0,
    goes to every client in join order; with a non-zero target that is a
    client's peer id it goes to that client only; with a non-zero target
    that is no client's peer id nothing is sent. *)
Theorem signal_routing_table s ws data target n r :
  getCurrentRoom s ws = Some n ->
  n <> EmptyString ->
  rooms s !! n = Some r ->
  let out := (handleSignal s ws data target).2 in
  let broadcast := map (fun client => Send client (signal_from data 1))
                       (JsMap.values (clients r)) in
  (getIsHost s ws = false ->
     out = [Send (host r) (signal_from data (getPeerId s ws))]) /\
  (getIsHost s ws = true ->
     (target = None \/ target = Some 0 -> out = broadcast) /\
     (forall t client, target = Some t -> t <> 0 ->
        JsMap.get t (clients r) = Some client ->
        out = [Send client (signal_from data 1)]) /\
     (forall t, target = Some t -> t <> 0 ->
        JsMap.get t (clients r) = None -> out = [])).
Proof.
  intros Hcur Hn Hr out broadcast. subst out broadcast.
  rewrite (handleSignal_routes s ws data target n r Hcur Hn Hr). cbn [snd].
  split; intros Hh; rewrite Hh; [reflexivity|]. repeat split.
  - intros [->| ->]; reflexivity.
  - intros t client -> Ht Hget. apply Z.eqb_neq in Ht. now rewrite Ht, Hget.
  - intros t -> Ht Hget. apply Z.eqb_neq in Ht. now rewrite Ht, Hget.
Qed.

Lemma signal_routing_table_witness :
  (handleSignal three_peers 2%nat "candidate" (Some 2)).2 =
  [Send 0%nat (signal_from "candidate" 3)].
Proof.
  refine (proj1 (signal_routing_table three_peers 2%nat "candidate" (Some 2) "r1"
                   (Room 0%nat [(2, 1%nat); (3, 2%nat)] None 4) _ _ _) _).
  - vm_compute. reflexivity.
  - discriminate.
  - vm_compute. reflexivity.
  - vm_compute. reflexivity.
Defined.

Ltac in_out H :=
  repeat match type of H with
         | In _ [] => destruct H
         | In _ (_ :: _) => destruct H as [H|H]; [try discriminate H|]
         | In _ (flat_map _ _) =>
             let x := fresh "x" in
             let Hx := fresh "Hx" in
             apply in_flat_map in H as (x & Hx & H)
         | In _ (map _ _) =>
             let x := fresh "x" in
             let Hx := fresh "Hx" in
             apply in_map_iff in H as (x & H & Hx); try discriminate H
         | In _ (let '(_, _) := ?p in _) => destruct p
         | In _ (if ?b then _ else _) => destruct b
         end.

(** X10. An [error] envelope is only ever the whole answer to a rejected
    request: if the output of an event contains one, the event is a message
    of the addressee, the output is that single envelope, and the state is
    unchanged. Signals and disconnects never produce an error. *)
Theorem errors_only_answer_rejected_requests s e to msg :
  In (Send to (error msg)) (step s e).2 ->
  (step s e).1 = s /\
  (step s e).2 = [Send to (error msg)] /\
  exists m, e = EvMessage to m.
Proof.
  destruct e as [|ws m|ws]; cbn [step].
  - intros [].
  - destruct (sessions s !! ws); [|intros []].
    destruct m as [n0 pw|n0 pw|data target|]; cbn [on_message].
    + unfold handleCreateRoom. destruct (rooms s !! n0); cbn [fst snd]; intros H.
      * destruct H as [[= <- <-]|[]]. eauto.
      * in_out H.
    + unfold handleJoinRoom. destruct (rooms s !! n0) as [r0|]; cbn [fst snd].
      2:{ intros [[= <- <-]|[]]. eauto. }
      destruct (truthy_str (password r0) && strict_neq (password r0) pw);
        cbn [fst snd].
      { intros [[= <- <-]|[]]. eauto. }
      destruct (4 <=? JsMap.size (clients r0))%nat; cbn [fst snd].
      { intros [[= <- <-]|[]]. eauto. }
      intros H. in_out H.
    + intros H. apply handleSignal_out in H
        as (n & r & _ & _ & _ & [[_ (c & _ & H)]|[_ H]]); discriminate.
    + intros [].
  - destruct (sessions s !! ws) as [σ|] eqn:Hws; [|intros []].
    rewrite (on_close_out_open s ws σ Hws).
    destruct (currentRoom σ) as [n|]; [|intros []].
    destruct (truthy_str (Some n)); [|intros []].
    unfold cleanupConnection. destruct (rooms s !! n) as [r|]; [|intros []].
    destruct (isHost σ); cbn [snd]; intros H; in_out H.
Qed.

Lemma errors_only_answer_rejected_requests_witness :
  (step full_locked_room (EvMessage 5%nat (join_room "den" None))).1 =
  full_locked_room.
Proof.
  refine (proj1 (errors_only_answer_rejected_requests full_locked_room
                   (EvMessage 5%nat (join_room "den" None)) 5%nat
                   "Wrong password" _)).
  vm_compute. left. reflexivity.
Defined.

(** X11. The server closes a connection only while cleaning up after a
    host: if the output of an event closes [c], the event is the close of
    an open connection marked host of a room that is in the registry, [c]
    is a client of that room and was sent [host_disconnected], and the room
    is gone afterwards. *)
Theorem closes_only_follow_host_disconnect s e c :
  In (Close c) (step s e).2 ->
  exists ws σ n r,
    e = EvClose ws /\ sessions s !! ws = Some σ /\
    currentRoom σ = Some n /\ isHost σ = true /\
    rooms s !! n = Some r /\ In c (JsMap.values (clients r)) /\
    In (Send c host_disconnected) (step s e).2 /\
    rooms (step s e).1 !! n = None.
Proof.
  destruct e as [|ws m|ws]; cbn [step].
  - intros [].
  - destruct (sessions s !! ws); [|intros []].
    destruct m as [n0 pw|n0 pw|data target|]; cbn [on_message].
    + unfold handleCreateRoom. destruct (rooms s !! n0); cbn [snd];
        intros H; in_out H.
    + unfold handleJoinRoom. destruct (rooms s !! n0) as [r0|]; cbn [snd].
      2:{ intros H; in_out H. }
      destruct (truthy_str (password r0) && strict_neq (password r0) pw);
        cbn [snd]; [intros H; in_out H|].
      destruct (4 <=? JsMap.size (clients r0))%nat; cbn [snd];
        intros H; in_out H.
    + intros H. apply handleSignal_out in H
        as (n & r & _ & _ & _ & [[_ (c' & _ & H)]|[_ H]]); discriminate.
    + intros [].
  - destruct (sessions s !! ws) as [σ|] eqn:Hws; [|intros []].
    rewrite (on_close_out_open s ws σ Hws), (on_close_rooms_open s ws σ Hws).
    destruct (currentRoom σ) as [n|] eqn:Hn; [|intros []].
    destruct (truthy_str (Some n)); [|intros []].
    rewrite cleanupConnection_rooms. unfold cleanupConnection.
    destruct (rooms s !! n) as [r|] eqn:Hr; [|intros []].
    destruct (isHost σ) eqn:Hh; cbn [snd]; intros H.
    + exists ws, σ, n, r. repeat split; try assumption; try reflexivity.
      * apply in_flat_map in H as (x & Hx & H).
        destruct H as [H|[H|[]]]; [discriminate|]. now injection H as <-.
      * apply in_flat_map in H as (x & Hx & H).
        destruct H as [H|[H|[]]]; [discriminate|]. injection H as <-.
        apply in_flat_map. exists x. split; [assumption|]. now left.
      * apply lookup_delete_eq.
    + in_out H.
Qed.

Lemma closes_only_follow_host_disconnect_witness :
  exists ws σ n r,
    EvClose 0%nat = EvClose ws /\ sessions three_peers !! ws = Some σ /\
    currentRoom σ = Some n /\ isHost σ = true /\
    rooms three_peers !! n = Some r /\ In 2%nat (JsMap.values (clients r)) /\
    In (Send 2%nat host_disconnected) (step three_peers (EvClose 0%nat)).2 /\
    rooms (step three_peers (EvClose 0%nat)).1 !! n = None.
Proof.
  apply (closes_only_follow_host_disconnect three_peers (EvClose 0%nat) 2%nat).
  vm_compute. tauto.
Defined.

(** ** Leaving, and how the handlers compose *)

Lemma get_delete_eq k m : JsMap.get k (JsMap.delete k m) = None.
Proof.
  induction m as [|[k' v'] m IH]; cbn; [reflexivity|].
  destruct (Z.eqb_spec k' k) as [|Hne]; [assumption|].
  cbn. destruct (Z.eqb_spec k' k); [contradiction|assumption].
Qed.

Lemma get_delete_ne k k' m :
  k' <> k -> JsMap.get k' (JsMap.delete k m) = JsMap.get k' m.
Proof.
  intros Hne. induction m as [|[k0 v0] m IH]; cbn; [reflexivity|].
  destruct (Z.eqb_spec k0 k) as [->|Hk0].
  - destruct (Z.eqb_spec k k'); [congruence|assumption].
  - cbn. now rewrite IH.
Qed.

Lemma delete_absent k m : ~ In k (JsMap.keys m) -> JsMap.delete k m = m.
Proof.
  induction m as [|[k' v'] m IH]; cbn; [reflexivity|].
  intros Hk. destruct (Z.eqb_spec k' k); [tauto|]. rewrite IH; tauto.
Qed.

Lemma delete_last_added k v m :
  ~ In k (JsMap.keys m) -> JsMap.delete k (m ++ [(k, v)]) = m.
Proof.
  induction m as [|[k' v'] m IH]; cbn.
  - now rewrite Z.eqb_refl.
  - intros Hk. destruct (Z.eqb_spec k' k); [tauto|]. rewrite IH; tauto.
Qed.

(** X12. Cleanup for a client of a room in the registry removes the entry
    of that peer id and no other (the remaining clients keep their ids and
    connections), leaves host, password, counter and all sessions as they
    were, and sends [peer_left] to the host and then to every remaining
    client. When the peer id is not in the room the clients are unchanged,
    and the notifications are still sent. *)
Theorem client_cleanup_removes_one_peer s n ws pid r :
  rooms s !! n = Some r ->
  let res := cleanupConnection s n ws false pid in
  let remaining := JsMap.delete pid (clients r) in
  rooms res.1 =
    <[n := Room (host r) remaining (password r) (next_peer_id r)]> (rooms s) /\
  sessions res.1 = sessions s /\
  JsMap.get pid remaining = None /\
  (forall k, k <> pid -> JsMap.get k remaining = JsMap.get k (clients r)) /\
  res.2 = Send (host r) (peer_left pid)
          :: map (fun client => Send client (peer_left pid))
                 (JsMap.values remaining) /\
  (~ In pid (JsMap.keys (clients r)) -> remaining = clients r).
Proof.
  intros Hr res remaining. subst res remaining.
  rewrite cleanupConnection_rooms, cleanupConnection_sessions, Hr.
  unfold cleanupConnection. rewrite Hr. cbn [snd host clients].
  repeat split.
  - apply get_delete_eq.
  - intros k Hk. now apply get_delete_ne.
  - apply delete_absent.
Qed.

Lemma client_cleanup_removes_one_peer_witness :
  (cleanupConnection three_peers "r1" 1%nat false 2).2 =
  [Send 0%nat (peer_left 2); Send 2%nat (peer_left 2)].
Proof.
  refine (proj1 (proj2 (proj2 (proj2 (proj2
    (client_cleanup_removes_one_peer three_peers "r1" 1%nat 2
       (Room 0%nat [(2, 1%nat); (3, 2%nat)] None 4) _)))))).
  vm_compute. reflexivity.
Defined.

(** X13. Create, then join with the password given at creation (absent,
    empty or not): the join is accepted, the joiner gets peer id 2 and an
    empty [existing_peers], the creator gets [peer_joined] 2, and the room
    holds that one client with the counter at 3. *)
Theorem create_then_join s creator ws n pw :
  rooms s !! n = None ->
  let s1 := (handleCreateRoom s creator n pw).1 in
  (handleJoinRoom s1 ws n pw).2 =
    [Send ws (room_joined n 2 []); Send creator (peer_joined 2)] /\
  rooms (handleJoinRoom s1 ws n pw).1 !! n =
    Some (Room creator [(2, ws)] (if truthy_str pw then pw else None) 3).
Proof.
  intros Hn s1.
  assert (Hs1 : rooms s1 !! n =
                Some (Room creator [] (if truthy_str pw then pw else None) 2)).
  { subst s1. rewrite handleCreateRoom_rooms, Hn. apply lookup_insert_eq. }
  assert (Htest : truthy_str (if truthy_str pw then pw else None)
                  && strict_neq (if truthy_str pw then pw else None) pw = false).
  { apply password_test_false. destruct (truthy_str pw); auto. }
  rewrite handleJoinRoom_rooms. unfold handleJoinRoom, join_accepted.
  rewrite Hs1. cbn [password clients JsMap.size length Nat.leb].
  rewrite Htest. cbn. rewrite lookup_insert_eq. split; reflexivity.
Qed.

Lemma create_then_join_witness :
  (handleJoinRoom (handleCreateRoom init 0%nat "r2" (Some "pw")).1
     1%nat "r2" (Some "pw")).2 =
  [Send 1%nat (room_joined "r2" 2 []); Send 0%nat (peer_joined 2)].
Proof.
  refine (proj1 (create_then_join init 0%nat 1%nat "r2" (Some "pw") _)).
  vm_compute. reflexivity.
Defined.

(** X14. Join, then leave: after an accepted join from a reachable state,
    cleanup for the new peer id puts the room's clients back as they were
    before the join; only the counter stays one higher, so the id is not
    handed out again. The host and the earlier clients get [peer_left]. *)
Theorem join_then_leave s ws n pw r :
  reachable s ->
  rooms s !! n = Some r ->
  join_accepted r pw = true ->
  let s1 := (handleJoinRoom s ws n pw).1 in
  let res := cleanupConnection s1 n ws false (next_peer_id r) in
  rooms res.1 =
    <[n := Room (host r) (clients r) (password r) (next_peer_id r + 1)]> (rooms s) /\
  res.2 = Send (host r) (peer_left (next_peer_id r))
          :: map (fun client => Send client (peer_left (next_peer_id r)))
                 (JsMap.values (clients r)).
Proof.
  intros Hs Hr Hacc s1 res.
  destruct (reachable_room_inv s Hs n r Hr) as (_ & Hrange & _).
  assert (Hfresh : ~ In (next_peer_id r) (JsMap.keys (clients r))).
  { intros Hin. apply Hrange in Hin. lia. }
  assert (Hs1 : rooms s1 = <[n := Room (host r) (clients r ++ [(next_peer_id r, ws)])
                                       (password r) (next_peer_id r + 1)]> (rooms s)).
  { subst s1. rewrite handleJoinRoom_rooms, Hr, Hacc.
    now rewrite (JsMapFacts.set_fresh _ _ _ Hfresh). }
  subst res. rewrite cleanupConnection_rooms. unfold cleanupConnection.
  rewrite Hs1, lookup_insert_eq. cbn [snd host clients password next_peer_id].
  rewrite (delete_last_added _ _ _ Hfresh), insert_insert_eq. split; reflexivity.
Qed.

Lemma join_then_leave_witness :
  rooms (cleanupConnection (handleJoinRoom three_peers 7%nat "r1" None).1
           "r1" 7%nat false 4).1 =
  <["r1" := Room 0%nat [(2, 1%nat); (3, 2%nat)] None 5]> (rooms three_peers).
Proof.
  refine (proj1 (join_then_leave three_peers 7%nat "r1" None
                   (Room 0%nat [(2, 1%nat); (3, 2%nat)] None 4)
                   (sample_reachable _) _ _)).
  - vm_compute. reflexivity.
  - vm_compute. reflexivity.
Defined.

(** X15. Create, then the host leaves: cleanup for the host of a room that
    was just created sends nothing and gives back the registry as it was
    before the creation, so the name is free again and the next
    [create_room] for it is accepted. *)
Theorem create_then_host_leaves s ws n pw ws' pw' :
  rooms s !! n = None ->
  let s1 := (handleCreateRoom s ws n pw).1 in
  let res := cleanupConnection s1 n ws true 1 in
  rooms res.1 = rooms s /\
  res.2 = [] /\
  (handleCreateRoom res.1 ws' n pw').2 = [Send ws' (room_created n 1)].
Proof.
  intros Hn s1 res.
  assert (Hs1 : rooms s1 =
    <[n := Room ws [] (if truthy_str pw then pw else None) 2]> (rooms s)).
  { subst s1. now rewrite handleCreateRoom_rooms, Hn. }
  assert (Hres : rooms res.1 = rooms s).
  { subst res. rewrite cleanupConnection_rooms, Hs1, lookup_insert_eq.
    now apply delete_insert_id. }
  split; [exact Hres|]. split.
  - subst res. unfold cleanupConnection. now rewrite Hs1, lookup_insert_eq.
  - unfold handleCreateRoom. now rewrite Hres, Hn.
Qed.

Lemma create_then_host_leaves_witness :
  rooms (cleanupConnection (handleCreateRoom three_peers 1%nat "r2" None).1
           "r2" 1%nat true 1).1 = rooms three_peers.
Proof.
  refine (proj1 (create_then_host_leaves three_peers 1%nat "r2" None 1%nat None _)).
  vm_compute. reflexivity.
Defined.

Lemma room_lifetime_consecutive evs : forall s n r,
  rooms s !! n = Some r ->
  room_alive n s evs = true ->
  exists r', rooms (run s evs) !! n = Some r' /\
    next_peer_id r' =
      next_peer_id r + Z.of_nat (length (assigned_ids n s evs)) /\
    forall (i : nat) p, nth_error (assigned_ids n s evs) i = Some p ->
                        p = next_peer_id r + Z.of_nat i.
Proof.
  induction evs as [|e evs IH]; intros s n r Hr Halive; cbn in *.
  - exists r. split; [assumption|]. split; [lia|].
    intros [|i] p; discriminate.
  - destruct (rooms (step s e).1 !! n) as [r1|] eqn:Hr1; [|discriminate].
    destruct (IH _ _ _ Hr1 Halive) as (r' & Hr' & Hnext & Hnth).
    destruct (step_room_step s e n r r1 Hr Hr1) as (_ & _ & Hcase).
    exists r'. split; [assumption|].
    destruct (assigned_id n (step s e).2) as [p0|].
    + destruct Hcase as (-> & Hn1 & _). split.
      * rewrite Hnext, Hn1. cbn [length]. lia.
      * intros [|i] p; cbn.
        -- intros [= <-]. lia.
        -- intros Hp. apply Hnth in Hp. lia.
    + destruct Hcase as (Hn1 & _). rewrite Hn1 in *. auto.
Qed.

(** X16. Peer ids are handed out consecutively: over any sequence of
    events during which a room stays in the registry, the i-th joiner
    accepted gets the room's starting [next_peer_id] plus i, and the counter
    ends at the start value plus the number of accepted joins, whatever
    clients left in between. For a room just created the start value is
    2. *)
Theorem peer_ids_consecutive s n r evs :
  rooms s !! n = Some r ->
  room_alive n s evs = true ->
  (forall (i : nat) p, nth_error (assigned_ids n s evs) i = Some p ->
                       p = next_peer_id r + Z.of_nat i) /\
  exists r', rooms (run s evs) !! n = Some r' /\
             next_peer_id r' =
               next_peer_id r + Z.of_nat (length (assigned_ids n s evs)).
Proof.
  intros Hr Halive.
  destruct (room_lifetime_consecutive evs s n r Hr Halive) as (r' & Hr' & Hn & Hnth).
  split; [exact Hnth|]. eauto.
Qed.

Lemma peer_ids_consecutive_witness :
  exists r', rooms (run three_peers later_joins) !! "r1" = Some r' /\
             next_peer_id r' =
               4 + Z.of_nat (length (assigned_ids "r1" three_peers later_joins)).
Proof.
  refine (proj2 (peer_ids_consecutive three_peers "r1"
                   (Room 0%nat [(2, 1%nat); (3, 2%nat)] None 4) later_joins _ _)).
  - vm_compute. reflexivity.
  - vm_compute. reflexivity.
Defined.

(** ** The life of a room *)

(** X17. A room enters the registry only through an accepted
    [create_room]: if a name absent before an event is present after it,
    the event is a [create_room] for that name from an open connection,
    which becomes the host (session set to the room, host, peer id 1) and is
    sent [room_created] with peer id 1; the new room has no clients, its
    counter at 2, and stores the password only if it is a non-empty
    string. *)
Theorem rooms_appear_only_by_create s e n r' :
  rooms s !! n = None ->
  rooms (step s e).1 !! n = Some r' ->
  exists ws pw,
    e = EvMessage ws (create_room n pw) /\
    r' = Room ws [] (if truthy_str pw then pw else None) 2 /\
    (step s e).2 = [Send ws (room_created n 1)] /\
    sessions (step s e).1 !! ws = Some (Session (Some n) true 1).
Proof.
  intros Hn. destruct e as [|ws m|ws]; cbn [step].
  - cbn. congruence.
  - destruct (sessions s !! ws); [|cbn; congruence].
    destruct m as [n0 pw|n0 pw|data target|]; cbn [on_message].
    + rewrite handleCreateRoom_rooms, handleCreateRoom_sessions.
      unfold handleCreateRoom.
      destruct (rooms s !! n0) eqn:Hn0; [cbn; congruence|].
      destruct (decide (n0 = n)) as [->|Hne].
      * rewrite lookup_insert_eq. intros [= <-]. exists ws, pw.
        repeat split. apply lookup_insert_eq.
      * rewrite lookup_insert_ne by assumption. congruence.
    + rewrite handleJoinRoom_rooms.
      destruct (rooms s !! n0) as [r0|] eqn:Hr0; [|congruence].
      destruct (join_accepted r0 pw); [|congruence].
      destruct (decide (n0 = n)) as [->|Hne]; [congruence|].
      rewrite lookup_insert_ne by assumption. congruence.
    + rewrite handleSignal_state. congruence.
    + cbn. congruence.
  - destruct (sessions s !! ws) as [σ|] eqn:Hws; [|cbn; congruence].
    rewrite (on_close_rooms_open s ws σ Hws).
    destruct (currentRoom σ) as [n0|]; [|congruence].
    destruct (truthy_str (Some n0)); [|congruence].
    rewrite cleanupConnection_rooms.
    destruct (rooms s !! n0) as [r0|] eqn:Hr0; [|congruence].
    destruct (decide (n0 = n)) as [->|Hne]; [congruence|].
    destruct (isHost σ).
    + rewrite lookup_delete_ne by assumption. congruence.
    + rewrite lookup_insert_ne by assumption. congruence.
Qed.

Lemma rooms_appear_only_by_create_witness :
  exists ws pw,
    EvMessage 0%nat (create_room "b" None) = EvMessage ws (create_room "b" pw) /\
    Room 0%nat [] None 2 = Room ws [] (if truthy_str pw then pw else None) 2 /\
    (step hosting_a (EvMessage 0%nat (create_room "b" None))).2 =
      [Send ws (room_created "b" 1)] /\
    sessions (step hosting_a (EvMessage 0%nat (create_room "b" None))).1 !! ws =
      Some (Session (Some "b") true 1).
Proof.
  apply (rooms_appear_only_by_create hosting_a
           (EvMessage 0%nat (create_room "b" None)) "b" (Room 0%nat [] None 2)).
  - vm_compute. reflexivity.
  - vm_compute. reflexivity.
Defined.

(** X18. The host and the stored password of a room never change while
    the room stays in the registry, whatever joins, signals and client
    disconnects happen. *)
Theorem host_and_password_fixed s n r evs :
  rooms s !! n = Some r ->
  room_alive n s evs = true ->
  exists r', rooms (run s evs) !! n = Some r' /\
             host r' = host r /\ password r' = password r.
Proof.
  intros Hr Halive.
  destruct (room_lifetime evs s n r Hr Halive) as (r' & Hr' & Hh & Hp & _).
  eauto.
Qed.

Lemma host_and_password_fixed_witness :
  exists r', rooms (run three_peers later_joins) !! "r1" = Some r' /\
             host r' = 0%nat /\ password r' = None.
Proof.
  apply (host_and_password_fixed three_peers "r1"
           (Room 0%nat [(2, 1%nat); (3, 2%nat)] None 4) later_joins).
  - vm_compute. reflexivity.
  - vm_compute. reflexivity.
Defined.

(** X19. The close event of an open connection whose room is not in the
    registry (its host already left) sends nothing and leaves the registry
    unchanged. *)
Theorem close_after_room_gone s ws σ n :
  sessions s !! ws = Some σ ->
  currentRoom σ = Some n ->
  rooms s !! n = None ->
  (step s (EvClose ws)).2 = [] /\
  rooms (step s (EvClose ws)).1 = rooms s.
Proof.
  intros Hws Hn Hgone. cbn [step]. rewrite Hws.
  rewrite (on_close_out_open s ws σ Hws), (on_close_rooms_open s ws σ Hws), Hn.
  destruct (truthy_str (Some n)); [|split; reflexivity].
  rewrite cleanupConnection_rooms. unfold cleanupConnection.
  rewrite Hgone. split; reflexivity.
Qed.

Lemma close_after_room_gone_witness :
  (step (step three_peers (EvClose 0%nat)).1 (EvClose 1%nat)).2 = [].
Proof.
  refine (proj1 (close_after_room_gone (step three_peers (EvClose 0%nat)).1 1%nat
                   (Session (Some "r1") false 2) "r1" _ _ _)).
  - vm_compute. reflexivity.
  - reflexivity.
  - vm_compute. reflexivity.
Defined.
